(** * The session registry, event framer, transport adapter and request
      router of [src/function.ts], embedded in Rocq.

    The TypeScript module keeps its state in module-level variables
    ([connections], [messageQueue], [transport], [serverInitialized]); the
    embedding threads that state explicitly through every function.  The
    JavaScript built-ins the module calls ([JSON.stringify], truthiness,
    property access, [String.prototype.match]) are modelled in [Module JS];
    the two library calls whose behaviour is defined outside the repository
    ([new URL(..).searchParams.get] and the SDK's [server.connect]) are
    parameters of [Section Program].

    Each invocation of [main] is taken to run to completion before the next
    one starts (the host serializes invocations); [console] output is not
    part of the state and is left out, but not the conversion to a string of
    a value spliced into the template literal of a log line, which can
    throw. *)

From stdpp Require Import base list strings pretty numbers.
From Stdlib Require Import ZArith Ascii String.

Set Warnings "-register-all".

Local Open Scope Z_scope.
Local Open Scope string_scope.

(** ** JavaScript values and built-ins *)

Module JS.

(** A JavaScript value as it can reach the module: the result of decoding a
    request body, a message handed to [send], a query entry.  Numbers are the
    integral ones (every number this module builds is a counter or a length,
    far below 2^53, where [Number] arithmetic is exact); [JNum n] stands for
    a [Number] when [n] is a safe integer (see [safe_numbers]), the range in
    which the decimal text printed below is the one JavaScript prints. *)
Inductive any : Type :=
| JUndefined
| JNull
| JBool (b : bool)
| JNum (n : Z)
| JStr (s : string)
| JArr (xs : list any)
| JObj (fields : list (string * any)).

(** What a [throw] carries as far as [catch] looks: [error instanceof Error]
    and then [error.message]. *)
Inductive thrown : Type :=
| ErrorObj (message : string)
| NonError.

(** A completion: the expression returned a value or threw. *)
Inductive completion (A : Type) : Type :=
| Normal (a : A)
| Throw (e : thrown).
Arguments Normal {A} a.
Arguments Throw {A} e.

#[global] Instance completion_ret : MRet completion := fun _ a => Normal a.
#[global] Instance completion_bind : MBind completion := fun _ _ k c =>
  match c with
  | Normal a => k a
  | Throw e => Throw e
  end.

(** [ToBoolean]: the test behind [if (v)], [!v], [a && b], [a || b]. *)
Definition ToBoolean (v : any) : bool :=
  match v with
  | JUndefined | JNull => false
  | JBool b => b
  | JNum n => negb (Z.eqb n 0)
  | JStr s => negb (String.eqb s "")
  | JArr _ | JObj _ => true
  end.

(** [typeof v === "object"]: objects, arrays and [null]. *)
Definition typeof_is_object (v : any) : bool :=
  match v with
  | JNull | JArr _ | JObj _ => true
  | _ => false
  end.

(** [a || b] on values: the left operand when it is truthy. *)
Definition or_else (a b : any) : any := if ToBoolean a then a else b.

Fixpoint assoc (k : string) (fs : list (string * any)) : any :=
  match fs with
  | [] => JUndefined
  | (k', v) :: fs' => if String.eqb k k' then v else assoc k fs'
  end.

Definition LF : string := String "010"%char EmptyString.
Definition QUOTE : string := String "034"%char EmptyString.

(** The message of the [TypeError] raised by reading a property of
    [undefined] or [null] (the text is the engine's; V8's is given). *)
Definition TypeError_message (v : any) (k : string) : string :=
  "Cannot read properties of " +:+
  (match v with JNull => "null" | _ => "undefined" end) +:+
  " (reading '" +:+ k +:+ "')".

(** [v.k] for the property names the module reads ([connectionId], [type],
    [name], [message]), none of which a built-in prototype defines: an
    object's own field, [undefined] on any other value, and a [TypeError] on
    [undefined] and [null]. *)
Definition Get (v : any) (k : string) : completion any :=
  match v with
  | JUndefined | JNull => Throw (ErrorObj (TypeError_message v k))
  | JObj fs => Normal (assoc k fs)
  | _ => Normal JUndefined
  end.

(** *** [JSON.stringify] *)

Definition hex_digit (n : N) : ascii :=
  match n with
  | 0 => "0" | 1 => "1" | 2 => "2" | 3 => "3" | 4 => "4" | 5 => "5"
  | 6 => "6" | 7 => "7" | 8 => "8" | 9 => "9" | 10 => "a" | 11 => "b"
  | 12 => "c" | 13 => "d" | 14 => "e" | _ => "f"
  end%char%N.

(** One character of [QuoteJSONString]: the two-character escapes, a
    [\u00xx] escape for the other control characters, the character itself
    otherwise. *)
Definition quote_char (c : ascii) : string :=
  let n := N_of_ascii c in
  if (n =? 34)%N then "\" +:+ QUOTE
  else if (n =? 92)%N then "\\"
  else if (n =? 8)%N then "\b"
  else if (n =? 9)%N then "\t"
  else if (n =? 10)%N then "\n"
  else if (n =? 12)%N then "\f"
  else if (n =? 13)%N then "\r"
  else if (n <? 32)%N then
    "\u00" +:+ String (hex_digit (n / 16)) (String (hex_digit (n mod 16)) EmptyString)
  else String c EmptyString.

Fixpoint quote_chars (s : string) : string :=
  match s with
  | EmptyString => EmptyString
  | String c s' => quote_char c +:+ quote_chars s'
  end.

Definition QuoteJSONString (s : string) : string :=
  QUOTE +:+ quote_chars s +:+ QUOTE.

(** [Array.prototype.join] on strings. *)
Definition join (sep : string) (parts : list string) : string :=
  String.concat sep parts.

(** [SerializeJSONProperty] with the [gap] of the third argument of
    [JSON.stringify] (empty for the one-argument call) and the current
    [indent]; [None] is the [undefined] result. *)
Fixpoint SerializeJSONProperty (gap indent : string) (v : any) : option string :=
  match v with
  | JUndefined => None
  | JNull => Some "null"
  | JBool b => Some (if b then "true" else "false")
  | JNum n => Some (pretty n)
  | JStr s => Some (QuoteJSONString s)
  | JArr xs =>
      let stepback := indent in
      let indent := indent +:+ gap in
      let partial :=
        map (fun x => default "null" (SerializeJSONProperty gap indent x)) xs in
      Some (match partial with
            | [] => "[]"
            | _ =>
                if String.eqb gap "" then "[" +:+ join "," partial +:+ "]"
                else "[" +:+ LF +:+ indent +:+ join ("," +:+ LF +:+ indent) partial
                         +:+ LF +:+ stepback +:+ "]"
            end)
  | JObj fs =>
      let stepback := indent in
      let indent := indent +:+ gap in
      let partial :=
        omap (fun kv =>
                match kv with
                | (k, x) =>
                    match SerializeJSONProperty gap indent x with
                    | Some s =>
                        Some (QuoteJSONString k +:+ ":" +:+
                              (if String.eqb gap "" then "" else " ") +:+ s)
                    | None => None
                    end
                end) fs in
      Some (match partial with
            | [] => "{}"
            | _ =>
                if String.eqb gap "" then "{" +:+ join "," partial +:+ "}"
                else "{" +:+ LF +:+ indent +:+ join ("," +:+ LF +:+ indent) partial
                         +:+ LF +:+ stepback +:+ "}"
            end)
  end.

(** [JSON.stringify(v)]. *)
Definition JSON_stringify (v : any) : option string :=
  SerializeJSONProperty "" "" v.

(** [JSON.stringify(v, null, n)] for [n] spaces of indentation. *)
Definition JSON_stringify_indent (n : nat) (v : any) : option string :=
  SerializeJSONProperty (String.concat "" (replicate n " ")) "" v.

(** The result of a serialization where the module goes on to use it as text
    (a response body, a buffer entry later spliced into a template literal):
    the string itself, and the text of [undefined] for that result. *)
Definition as_text (r : option string) : string := default "undefined" r.

(** [String(n)] for an integral number. *)
Definition Number_toString (n : Z) : string := pretty n.

(** [Number.MAX_SAFE_INTEGER], and the values all of whose numbers are safe
    integers. *)
Definition MAX_SAFE_INTEGER : Z := 2 ^ 53 - 1.

Fixpoint safe_numbers (v : any) : bool :=
  match v with
  | JNum n => Z.leb (- MAX_SAFE_INTEGER) n && Z.leb n MAX_SAFE_INTEGER
  | JArr xs => forallb safe_numbers xs
  | JObj fs => forallb (fun kv => safe_numbers kv.2) fs
  | _ => true
  end.

(** Whether an object has an own property of the given name. *)
Definition has_own (k : string) (fs : list (string * any)) : bool :=
  existsb (fun kv => String.eqb k kv.1) fs.

(** The message of the [TypeError] raised when an object has no primitive
    value (the text is the engine's; V8's is given). *)
Definition ToPrimitive_message : string := "Cannot convert object to primitive value".

(** [ToString], the conversion behind a template literal.  An array is
    joined with commas, [undefined] and [null] elements giving the empty
    text.  A plain object prints as [[object Object]], unless it has an own
    [toString] property: decoded data is never callable, so neither that
    property nor [valueOf] (own and not callable, or inherited and returning
    the object itself) yields a primitive, and the conversion throws. *)
Fixpoint ToString (v : any) : completion string :=
  match v with
  | JUndefined => Normal "undefined"
  | JNull => Normal "null"
  | JBool b => Normal (if b then "true" else "false")
  | JNum n => Normal (Number_toString n)
  | JStr s => Normal s
  | JArr xs =>
      let fix elements (xs : list any) : completion (list string) :=
        match xs with
        | [] => Normal []
        | x :: xs' =>
            match (match x with
                   | JUndefined | JNull => Normal EmptyString
                   | _ => ToString x
                   end) with
            | Throw e => Throw e
            | Normal text =>
                match elements xs' with
                | Throw e => Throw e
                | Normal texts => Normal (text :: texts)
                end
            end
        end in
      match elements xs with
      | Throw e => Throw e
      | Normal texts => Normal (join "," texts)
      end
  | JObj fs =>
      if has_own "toString" fs then Throw (ErrorObj ToPrimitive_message)
      else Normal "[object Object]"
  end.

(** *** Strings *)

(** [s.startsWith(p)]. *)
Definition startsWith (s p : string) : bool := String.prefix p s.

(** [s.includes(p)]. *)
Fixpoint includes (s p : string) : bool :=
  String.prefix p s ||
  match s with
  | EmptyString => false
  | String _ s' => includes s' p
  end.

(** The capture of [[^&]+] at the head of [s]: the longest run of characters
    other than [&], when it is not empty. *)
Fixpoint not_amp_run (s : string) : string :=
  match s with
  | EmptyString => EmptyString
  | String c s' => if Ascii.eqb c "&" then EmptyString else String c (not_amp_run s')
  end.

(** [s.match(/[?&]connectionId=([^&]+)/)]: the first group of the leftmost
    match, [None] for a [null] result. *)
Fixpoint match_connectionId (s : string) : option string :=
  match s with
  | EmptyString => None
  | String c s' =>
      let here :=
        if (Ascii.eqb c "?" || Ascii.eqb c "&") && String.prefix "connectionId=" s'
        then
          let rest := String.substring 13 (String.length s' - 13) s' in
          match not_amp_run rest with
          | EmptyString => None
          | run => Some run
          end
        else None in
      match here with
      | Some run => Some run
      | None => match_connectionId s'
      end
  end.

End JS.

Import JS.

(** ** Data model *)

(** [interface FleekFunctionParams].  An absent [query] or [body] is
    [JUndefined]; both are values the host passes in, so they are modelled as
    arbitrary JavaScript values. *)
Record FleekFunctionParams : Type := {
  method : string;
  path : string;
  headers : list (string * string);
  query : any;
  body : any
}.

(** [interface FleekFunctionResponse]; [None] is an absent field. *)
Record FleekFunctionResponse : Type := {
  status : option Z;
  rheaders : option (list (string * string));
  rbody : string
}.

(** [interface SSEConnection].  [lastEventId] is a [Number] that starts at 0
    and only ever grows by the length of a drained buffer; it is an integer
    far below 2^53, where [Number] addition is exact, and is modelled in
    [Z]. *)
Record SSEConnection : Type := {
  id : string;
  messages : list string;
  lastEventId : Z
}.

(** A call the protocol handler (or the SDK) makes on the transport object. *)
Inductive transport_call : Type :=
| CallStart
| CallClose
| CallSend (message : any)
| CallOnMessage (callback : any -> list transport_call * option thrown).

(** A registered message callback: given the delivered message, the calls it
    makes on the transport before it returns, and what it throws if it does. *)
Definition callback : Type := any -> list transport_call * option thrown.

(** The private fields of [class FleekTransport]. *)
Record FleekTransport : Type := {
  onMessageCallback : option callback;
  isConnected : bool
}.

(** The module-level state: [connections], [messageQueue], [transport] and
    [serverInitialized]. *)
Record State : Type := {
  connections : list SSEConnection;
  messageQueue : list any;
  transport : FleekTransport;
  serverInitialized : bool
}.

(** The state of a freshly loaded module. *)
Definition initial_state : State :=
  {| connections := [];
     messageQueue := [];
     transport := {| onMessageCallback := None; isConnected := false |};
     serverInitialized := false |}.

Definition set_connections (st : State) (cs : list SSEConnection) : State :=
  {| connections := cs;
     messageQueue := messageQueue st;
     transport := transport st;
     serverInitialized := serverInitialized st |}.

Definition set_transport (st : State) (t : FleekTransport) : State :=
  {| connections := connections st;
     messageQueue := messageQueue st;
     transport := t;
     serverInitialized := serverInitialized st |}.

(** The outcome of [new URL(u).searchParams.get(k)]: the constructor threw,
    or [get] returned [null] ([None]) or a string. *)
Inductive url_result : Type :=
| UrlThrows
| UrlGet (value : option string).

(** ** Transport adapter *)

(** [FleekTransport.start] and [FleekTransport.close]. *)
Definition start (st : State) : State :=
  set_transport st
    {| onMessageCallback := onMessageCallback (transport st); isConnected := true |}.

Definition close (st : State) : State :=
  set_transport st
    {| onMessageCallback := onMessageCallback (transport st); isConnected := false |}.

(** [FleekTransport.onMessage]. *)
Definition onMessage (cb : callback) (st : State) : State :=
  set_transport st
    {| onMessageCallback := Some cb; isConnected := isConnected (transport st) |}.

(** The body of the [forEach] in [send]:
    [conn.messages.push(JSON.stringify(message))].  Serializing a value of
    [any] does not throw, so the [catch] around it has nothing to catch; the
    entry is kept as the text a later poll splices into its frame. *)
Definition push_message (message : any) (conn : SSEConnection) : SSEConnection :=
  {| id := id conn;
     messages := messages conn ++ [as_text (JSON_stringify message)];
     lastEventId := lastEventId conn |}.

(** [FleekTransport.send]. *)
Definition send (message : any) (st : State) : State :=
  if negb (isConnected (transport st)) then st
  else
    {| connections := map (push_message message) (connections st);
       messageQueue := messageQueue st ++ [message];
       transport := transport st;
       serverInitialized := serverInitialized st |}.

(** One call on the transport object, and a sequence of them in order. *)
Definition apply_call (st : State) (c : transport_call) : State :=
  match c with
  | CallStart => start st
  | CallClose => close st
  | CallSend m => send m st
  | CallOnMessage cb => onMessage cb st
  end.

Definition apply_calls (cs : list transport_call) (st : State) : State :=
  fold_left apply_call cs st.

(** [FleekTransport.handleIncomingMessage]: the callback, when one is
    registered, runs synchronously; what it throws propagates. *)
Definition handleIncomingMessage (message : any) (st : State)
  : State * completion unit :=
  match onMessageCallback (transport st) with
  | Some cb =>
      let (calls, thrown) := cb message in
      (apply_calls calls st,
       match thrown with
       | Some e => Throw e
       | None => Normal tt
       end)
  | None => (st, Normal tt)
  end.

(** ** Weather tools

    The formatting done by the two registered tools.  What the tools fetch
    comes from [makeNWSRequest], whose result ([null] on any failure) is an
    input here; [String.prototype.toUpperCase] is the platform's. *)

Module Weather.

(** [props.f || d] for an optional string field: the field when it is there
    and not empty. *)
Definition or_string (f : option string) (d : string) : string :=
  match f with
  | Some s => if String.eqb s "" then d else s
  | None => d
  end.

(** A field with the empty string read as a missing one. *)
Definition missing_if_blank (f : option string) : option string :=
  match f with
  | Some s => if String.eqb s "" then None else Some s
  | None => None
  end.

(** [interface AlertFeature], flattened to its [properties]. *)
Record AlertFeature : Type := {
  event : option string;
  areaDesc : option string;
  severity : option string;
  status : option string;
  headline : option string
}.

(** [interface ForecastPeriod]; a temperature is an integral number. *)
Record ForecastPeriod : Type := {
  name : option string;
  temperature : option Z;
  temperatureUnit : option string;
  windSpeed : option string;
  windDirection : option string;
  shortForecast : option string
}.

(** [interface AlertsResponse]; the code allows for a missing [features]. *)
Record AlertsResponse : Type := {
  features : option (list AlertFeature)
}.

Definition NWS_API_BASE : string := "https://api.weather.gov".

(** The degree sign of the temperature line, as its two UTF-8 bytes. *)
Definition DEGREE : string := String "194"%char (String "176"%char EmptyString).

(** [formatAlert]. *)
Definition formatAlert (feature : AlertFeature) : string :=
  join LF
    ["Event: " +:+ or_string (event feature) "Unknown";
     "Area: " +:+ or_string (areaDesc feature) "Unknown";
     "Severity: " +:+ or_string (severity feature) "Unknown";
     "Status: " +:+ or_string (status feature) "Unknown";
     "Headline: " +:+ or_string (headline feature) "No headline";
     "---"].

(** [period.temperature || "Unknown"] spliced into the template. *)
Definition temperature_text (t : option Z) : string :=
  match t with
  | Some n => if Z.eqb n 0 then "Unknown" else Number_toString n
  | None => "Unknown"
  end.

(** The callback of [periods.map] in the [get-forecast] tool. *)
Definition formatPeriod (period : ForecastPeriod) : string :=
  join LF
    [or_string (name period) "Unknown" +:+ ":";
     "Temperature: " +:+ temperature_text (temperature period) +:+ DEGREE +:+
       or_string (temperatureUnit period) "F";
     "Wind: " +:+ or_string (windSpeed period) "Unknown" +:+ " " +:+
       or_string (windDirection period) "";
     or_string (shortForecast period) "No forecast available";
     "---"].

(** The callback of the [get-alerts] tool: the text of the single content
    item it returns. *)
Definition get_alerts (toUpperCase : string -> string)
  (makeNWSRequest : string -> option AlertsResponse) (state : string) : string :=
  let stateCode := toUpperCase state in
  let alertsUrl := NWS_API_BASE +:+ "/alerts?area=" +:+ stateCode in
  match makeNWSRequest alertsUrl with
  | None => "Failed to retrieve alerts data"
  | Some alertsData =>
      match default [] (features alertsData) with
      | [] => "No active alerts for " +:+ stateCode
      | fs =>
          "Active alerts for " +:+ stateCode +:+ ":" +:+ LF +:+ LF +:+
          join LF (map formatAlert fs)
      end
  end.

End Weather.

(** ** A concrete platform and sample inputs

    Used to run the router on concrete requests. *)

(** A stand-in for the platform's URL parser that is right on the sample
    requests: their paths carry at most one [connectionId] parameter, made of
    plain characters, which it returns. *)
Definition URL_sample : string -> string -> url_result :=
  fun url _ => UrlGet (match_connectionId url).

(** A stand-in for the platform's URL parser that is right on the request
    [poll_encoded] below, whose key is percent-encoded: the parser decodes
    the key and returns the value [5]. *)
Definition URL_decoding : string -> string -> url_result :=
  fun url key =>
    if String.eqb url "http://example.com/poll?%63onnectionId=5" &&
       String.eqb key "connectionId"
    then UrlGet (Some "5")
    else UrlGet None.

(** The SDK's [connect]: it starts the transport and its promise is
    fulfilled. *)
Definition sdk_connect : list transport_call * bool := ([CallStart], true).

Definition request (method path : string) (query body : any) : FleekFunctionParams :=
  {| method := method; path := path; headers := []; query := query; body := body |}.

Definition connected_transport (cb : option callback) : FleekTransport :=
  {| onMessageCallback := cb; isConnected := true |}.

(** A running module with the given sessions. *)
Definition running (cs : list SSEConnection) (cb : option callback) : State :=
  {| connections := cs;
     messageQueue := [];
     transport := connected_transport cb;
     serverInitialized := true |}.

Definition session (id : string) (messages : list string) (lastEventId : Z)
  : SSEConnection :=
  {| id := id; messages := messages; lastEventId := lastEventId |}.

(** A callback that throws an [Error] with message [boom] without sending
    anything. *)
Definition failing_callback : callback := fun _ => ([], Some (ErrorObj "boom")).

(** Two sessions and the requests used below. *)
Definition two_sessions : State :=
  running [session "7" ["a"; "b"] 4; session "8" [] 0] None.

Definition poll_7 : FleekFunctionParams :=
  request "GET" "/poll?connectionId=7" JUndefined JUndefined.

Definition poll_9 : FleekFunctionParams :=
  request "GET" "/poll?connectionId=9" JUndefined JUndefined.

Definition open_session : FleekFunctionParams :=
  request "GET" "/sse" JUndefined JUndefined.

Definition tool_call : any :=
  JObj [("type", JStr "tool_call"); ("name", JStr "get-alerts")].

Definition post_7 (body : any) : FleekFunctionParams :=
  request "POST" "/messages?connectionId=7" JUndefined body.

(** A callback that answers every delivery by sending the value it was given
    back through the transport. *)
Definition echo_callback : callback := fun m => ([CallSend m], None).

(** Bodies on which presence and truthiness of the fields differ. *)
Definition empty_type_body : any :=
  JObj [("type", JStr ""); ("name", JStr "n"); ("message", JStr "m")].

Definition empty_message_body : any := JObj [("message", JStr "")].

(** Two sessions under one id, as two openings at the same clock reading
    leave them, the second with a payload buffered. *)
Definition shadowed_sessions : State :=
  running [session "7" [] 0; session "7" ["late"] 0] None.

(** A delivery whose only id is a number in the body. *)
Definition post_numeric_id : FleekFunctionParams :=
  request "POST" "/messages" JUndefined (JObj [("connectionId", JNum 7)]).

(** A poll whose path, query object and body each carry a different id. *)
Definition poll_three_ids : FleekFunctionParams :=
  request "GET" "/poll?connectionId=abc&x=1"
    (JObj [("connectionId", JStr "Q")]) (JObj [("connectionId", JStr "B")]).

(** A value whose conversion to a string throws, and a delivery whose body
    gives it as id. *)
Definition unprintable : any := JObj [("toString", JNum 1)].

Definition post_unprintable_id : FleekFunctionParams :=
  request "POST" "/messages" JUndefined (JObj [("connectionId", unprintable)]).

(** A poll whose id only the URL parser finds. *)
Definition poll_encoded : FleekFunctionParams :=
  request "GET" "/poll?%63onnectionId=5" JUndefined JUndefined.

(** An upstream that answers every request with an empty feature list. *)
Definition no_alerts : string -> option Weather.AlertsResponse :=
  fun _ => Some {| Weather.features := Some [] |}.

(** ** Request router *)

Section Program.

(** [new URL(u).searchParams.get(k)], the platform's URL parser. *)
Variable URL_searchParams_get : string -> string -> url_result.

(** [server.connect(transport)] of the protocol SDK: the calls it makes on the
    transport, and whether the promise it returns is fulfilled. *)
Variable server_connect : list transport_call * bool.

(** [initServer]: connects once; a failed connect is logged and retried on the
    next invocation. *)
Definition initServer (st : State) : State :=
  if serverInitialized st then st
  else
    let (calls, fulfilled) := server_connect in
    let st' := apply_calls calls st in
    if fulfilled then
      {| connections := connections st';
         messageQueue := messageQueue st';
         transport := transport st';
         serverInitialized := true |}
    else st'.

(** The four sources of [getConnectionId], each [Some v] when its [return v]
    is reached. *)

(** 1. the [connectionId=] match in the raw path. *)
Definition source_path (params : FleekFunctionParams) : option any :=
  if negb (String.eqb (path params) "") && includes (path params) "connectionId="
  then JStr <$> match_connectionId (path params)
  else None.

(** 2. the [query] object. *)
Definition source_query (params : FleekFunctionParams) : option any :=
  if ToBoolean (query params) then
    match Get (query params) "connectionId" with
    | Normal v => if ToBoolean v then Some v else None
    | Throw _ => None
    end
  else None.

(** 3. the [body], when it is an object. *)
Definition source_body (params : FleekFunctionParams) : option any :=
  if ToBoolean (body params) && typeof_is_object (body params) then
    match Get (body params) "connectionId" with
    | Normal v => if ToBoolean v then Some v else None
    | Throw _ => None
    end
  else None.

(** 4. the search parameter of the path parsed against a fixed origin; a
    parse error is caught and logged. *)
Definition source_url (params : FleekFunctionParams) : option any :=
  match URL_searchParams_get ("http://example.com" +:+ path params) "connectionId" with
  | UrlGet (Some connId) =>
      if negb (String.eqb connId "") then Some (JStr connId) else None
  | UrlGet None => None
  | UrlThrows => None
  end.

(** [getConnectionId]; [JNull] is the final [return null]. *)
Definition getConnectionId (params : FleekFunctionParams) : any :=
  match source_path params with
  | Some v => v
  | None =>
      match source_query params with
      | Some v => v
      | None =>
          match source_body params with
          | Some v => v
          | None =>
              match source_url params with
              | Some v => v
              | None => JNull
              end
          end
      end
  end.

Definition sse_headers : list (string * string) :=
  [("Content-Type", "text/event-stream");
   ("Cache-Control", "no-cache");
   ("Connection", "keep-alive")].

(** [handleSSE]; [now] is the reading of [Date.now()]. *)
Definition handleSSE (now : Z) (params : FleekFunctionParams) (st : State)
  : State * FleekFunctionResponse :=
  let connectionId := Number_toString now in
  let connection := {| id := connectionId; messages := []; lastEventId := 0 |} in
  let st' := set_connections st (connections st ++ [connection]) in
  let sseResponse :=
    join LF ["Content-Type: text/event-stream";
             "Cache-Control: no-cache";
             "Connection: keep-alive";
             LF] in
  let sseResponse :=
    sseResponse +:+ "event: connected" +:+ LF +:+
    "data: {" +:+ QUOTE +:+ "connectionId" +:+ QUOTE +:+ ":" +:+
    QUOTE +:+ connectionId +:+ QUOTE +:+ "}" +:+ LF +:+ LF in
  (st', {| status := None; rheaders := Some sse_headers; rbody := sseResponse |}).

(** [conn.id === connectionId]: strict equality of a string with a value. *)
Definition strict_equals (s : string) (v : any) : bool :=
  match v with
  | JStr s' => String.eqb s s'
  | _ => false
  end.

(** [connections.find((conn) => conn.id === connectionId)], with the index
    of the connection found: the object is mutated in place there. *)
Definition find_connection (connectionId : any) (cs : list SSEConnection)
  : option (nat * SSEConnection) :=
  list_find (fun conn => strict_equals (id conn) connectionId = true) cs.

(** The body of the 404 response of both lookups. *)
Definition not_found_response (connectionId : any) (st : State)
  : FleekFunctionResponse :=
  {| status := Some 404;
     rheaders := None;
     rbody := as_text (JSON_stringify (JObj
       [("error", JStr "Connection not found");
        ("connectionId", connectionId);
        ("availableConnections", JNum (Z.of_nat (List.length (connections st))))])) |}.

(** One frame of the poll response: the text appended for [msg] with event
    id [eventId]. *)
Definition message_frame (eventId : Z) (msg : string) : string :=
  "id: " +:+ Number_toString eventId +:+ LF +:+
  "event: message" +:+ LF +:+
  "data: " +:+ msg +:+ LF +:+ LF.

Definition ping_frame : string :=
  "event: ping" +:+ LF +:+ "data: {}" +:+ LF +:+ LF.

(** The [messages.forEach((msg, index) => ...)] loop of [getSSEMessages],
    from position [index] on, appending to [response]. *)
Fixpoint forEach_frame (lastEventId : Z) (index : Z) (msgs : list string)
  (response : string) : string :=
  match msgs with
  | [] => response
  | msg :: rest =>
      let eventId := lastEventId + index + 1 in
      forEach_frame lastEventId (index + 1) rest
        (response +:+ message_frame eventId msg)
  end.

(** [getSSEMessages].  The one expression in it that can throw is the
    template literal of the not-found log line, which converts the id to a
    string. *)
Definition getSSEMessages (connectionId : any) (params : FleekFunctionParams)
  (st : State) : State * completion FleekFunctionResponse :=
  let connectionId :=
    if negb (ToBoolean connectionId) then getConnectionId params else connectionId in
  if negb (ToBoolean connectionId) then
    (st, Normal
           {| status := Some 400;
              rheaders := None;
              rbody := as_text (JSON_stringify (JObj
                [("error", JStr "Missing connectionId parameter");
                 ("path", JStr (path params));
                 ("query", query params)])) |})
  else
    match find_connection connectionId (connections st) with
    | None =>
        (* console.error(`Connection not found: ${connectionId}`) *)
        match ToString connectionId with
        | Throw e => (st, Throw e)
        | Normal _ => (st, Normal (not_found_response connectionId st))
        end
    | Some (i, connection) =>
        let msgs := messages connection in
        let response := forEach_frame (lastEventId connection) 0 msgs "" in
        let connection' :=
          {| id := id connection;
             messages := [];
             lastEventId := lastEventId connection + Z.of_nat (List.length msgs) |} in
        (set_connections st (<[i := connection']> (connections st)),
         Normal
           {| status := None;
              rheaders := Some sse_headers;
              rbody := if String.eqb response "" then ping_frame else response |})
    end.

(** [body.type && body.name ? body : body.message || body]. *)
Definition messageContent (body : any) : completion any :=
  type ← Get body "type";
  both ← (if ToBoolean type
          then name ← Get body "name"; mret (ToBoolean name)
          else mret false);
  if both : bool then mret body
  else message ← Get body "message"; mret (or_else message body).

(** The [try] block of [handleMessage]; the template literals of its two log
    lines convert the id to a string, which can throw. *)
Definition handleMessage_try (body connectionId : any) (st : State)
  : State * completion FleekFunctionResponse :=
  match find_connection connectionId (connections st) with
  | None =>
      (* console.error(`Connection not found: ${connectionId}`) *)
      match ToString connectionId with
      | Throw e => (st, Throw e)
      | Normal _ => (st, Normal (not_found_response connectionId st))
      end
  | Some _ =>
      (* console.log(`Processing message for connection: ${connectionId}`) *)
      match ToString connectionId with
      | Throw e => (st, Throw e)
      | Normal _ =>
          match messageContent body with
          | Throw e => (st, Throw e)
          | Normal content =>
              match handleIncomingMessage content st with
              | (st', Throw e) => (st', Throw e)
              | (st', Normal _) =>
                  (st', Normal
                     {| status := Some 200;
                        rheaders := None;
                        rbody := as_text (JSON_stringify (JObj
                          [("status", JStr "received");
                           ("connectionId", connectionId)])) |})
              end
          end
      end
  end.

(** [handleMessage]. *)
Definition handleMessage (body connectionId : any) (params : FleekFunctionParams)
  (st : State) : State * FleekFunctionResponse :=
  let connectionId :=
    if negb (ToBoolean connectionId) then getConnectionId params else connectionId in
  if negb (ToBoolean connectionId) then
    (st, {| status := Some 400;
            rheaders := None;
            rbody := as_text (JSON_stringify (JObj
              [("error", JStr "Missing connectionId parameter");
               ("details", JStr "Please include connectionId in the URL query parameter or request body");
               ("path", JStr (path params))])) |})
  else
    match handleMessage_try body connectionId st with
    | (st', Normal response) => (st', response)
    | (st', Throw error) =>
        let errorMessage :=
          match error with
          | ErrorObj message => message
          | NonError => "Unknown error"
          end in
        (st', {| status := Some 500;
                 rheaders := None;
                 rbody := as_text (JSON_stringify (JObj
                   [("error", JStr errorMessage);
                    ("connectionId", connectionId)])) |})
    end.

(** The three routes of [main] and the fallback. *)
Inductive route : Type := RouteSSE | RouteMessages | RoutePoll | RouteHelp.

Definition route_of (params : FleekFunctionParams) : route :=
  let path := path params in
  let method := method params in
  if String.eqb path "/sse" || startsWith path "/sse?" then RouteSSE
  else if (String.eqb path "/messages" || startsWith path "/messages?")
          && String.eqb method "POST" then RouteMessages
  else if (String.eqb path "/poll" || startsWith path "/poll?")
          && String.eqb method "GET" then RoutePoll
  else RouteHelp.

(** [main]: one invocation of the function, at clock reading [now].  The
    log line after the extraction splices [connectionId || "none"] into a
    template literal outside any [try]: when that conversion throws, [main]
    throws, after [initServer] and before any routing.  [logRequest] before
    it splices only strings (the method, the path, the serialized headers,
    the serialized body) or a body that is no object, whose conversion does
    not throw. *)
Definition main (now : Z) (params : FleekFunctionParams) (st : State)
  : State * completion FleekFunctionResponse :=
  let st := initServer st in
  let connectionId := getConnectionId params in
  match ToString (or_else connectionId (JStr "none")) with
  | Throw e => (st, Throw e)
  | Normal _ =>
      match route_of params with
      | RouteSSE =>
          let (st', response) := handleSSE now params st in (st', Normal response)
      | RouteMessages =>
          let (st', response) := handleMessage (body params) connectionId params st in
          (st', Normal response)
      | RoutePoll => getSSEMessages connectionId params st
      | RouteHelp =>
          (st, Normal
                 {| status := Some 200;
                    rheaders := None;
                    rbody := as_text (JSON_stringify_indent 2 (JObj
                      [("message", JStr "Weather MCP Server");
                       ("endpoints", JObj
                          [("/sse", JStr "Connect via SSE");
                           ("/messages?connectionId={id}", JStr "Send messages (POST)");
                           ("/poll?connectionId={id}", JStr "Poll for messages (GET)")]);
                       ("debug", JObj
                          [("path", JStr (path params));
                           ("method", JStr (method params));
                           ("connectionId", or_else connectionId (JStr "none"));
                           ("activeConnections",
                            JNum (Z.of_nat (List.length (connections st))))])])) |})
      end
  end.

(** ** Specification vocabulary *)

(** Concatenation of a list of texts. *)
Definition concat_text (parts : list string) : string :=
  foldr String.append EmptyString parts.

(** The frame of the wire contract: an id line, an event line, a data line
    and a blank line. *)
Definition framed_event (n : Z) (type data : string) : string :=
  "id: " +:+ Number_toString n +:+ LF +:+
  "event: " +:+ type +:+ LF +:+
  "data: " +:+ data +:+ LF +:+ LF.

(** A frame without the id line. *)
Definition unnumbered_event (type data : string) : string :=
  "event: " +:+ type +:+ LF +:+
  "data: " +:+ data +:+ LF +:+ LF.

Definition event_types : list string := ["connected"; "message"; "ping"].

(** A body that is a sequence of frames of the wire contract and nothing
    else. *)
Definition well_framed (body : string) : Prop :=
  exists frames : list (Z * string * string),
    Forall (fun f => f.1.2 ∈ event_types) frames /\
    body = concat_text (map (fun f => framed_event f.1.1 f.1.2 f.2) frames).

(** The event ids of the frames a poll emits for a session:
    [lastEventId + index + 1] for each buffered message. *)
Definition event_ids (conn : SSEConnection) : list Z :=
  (fun index => lastEventId conn + index + 1) <$>
  seqZ 0 (Z.of_nat (List.length (messages conn))).

(** The session a request resolves to when it is a poll: the route is
    [/poll], the extracted id is truthy, and [find] returns the connection at
    the given index. *)
Definition polled (params : FleekFunctionParams) (st : State)
  : option (nat * SSEConnection) :=
  match route_of params with
  | RoutePoll =>
      if ToBoolean (getConnectionId params)
      then find_connection (getConnectionId params) (connections (initServer st))
      else None
  | _ => None
  end.

(** The response of an invocation that returns one, nothing for one that
    throws. *)
Definition response (c : completion FleekFunctionResponse)
  : option FleekFunctionResponse :=
  match c with
  | Normal r => Some r
  | Throw _ => None
  end.

(** The text [main] logs after the extraction: the conversion to a string of
    the extracted id, or of [none] in its place; [main] throws when it
    does. *)
Definition log_line (params : FleekFunctionParams) : completion string :=
  ToString (or_else (getConnectionId params) (JStr "none")).

(** The id and the cursor of every live session, in registry order. *)
Definition cursors (st : State) : list (string * Z) :=
  (fun conn => (id conn, lastEventId conn)) <$> connections st.

(** What happens to the module between its load and its end: invocations of
    [main], and calls on the transport made outside a delivery (the protocol
    handler answering later, a new callback being registered). *)
Inductive event : Type :=
| Invoke (now : Z) (params : FleekFunctionParams)
| Transport (c : transport_call).

Definition step (st : State) (ev : event) : State :=
  match ev with
  | Invoke now params => (main now params st).1
  | Transport c => apply_call st c
  end.

Definition run (st : State) (evs : list event) : State := fold_left step evs st.

(** The event ids emitted for the session at index [i] by one event: those of
    a poll that resolves to it, none otherwise. *)
Definition emitted_ids (i : nat) (st : State) (ev : event) : list Z :=
  match ev with
  | Invoke _ params =>
      match polled params st with
      | Some (j, conn) => if decide (j = i) then event_ids conn else []
      | None => []
      end
  | Transport _ => []
  end.

(** ... and by a sequence of events, in order. *)
Fixpoint emitted_ids_run (i : nat) (st : State) (evs : list event) : list Z :=
  match evs with
  | [] => []
  | ev :: evs' => emitted_ids i st ev ++ emitted_ids_run i (step st ev) evs'
  end.

(** The normalization of an inbound body as the specification words it: a
    body with a [type] and a [name] field goes through as it is, otherwise
    the value of a [message] field when there is one, otherwise the body. *)
Definition has_field (k : string) (v : any) : bool :=
  match v with
  | JObj fs => bool_decide (k ∈ fs.*1)
  | _ => false
  end.

(** The value of a field of a body that is neither [undefined] nor [null]. *)
Definition field (k : string) (v : any) : any :=
  match v with
  | JObj fs => assoc k fs
  | _ => JUndefined
  end.

Definition normalize_as_specified (body : any) : any :=
  if has_field "type" body && has_field "name" body then body
  else if has_field "message" body then field "message" body
  else body.

(** What [catch] reports for a thrown value. *)
Definition error_text (e : thrown) : string :=
  match e with
  | ErrorObj message => message
  | NonError => "Unknown error"
  end.

Definition is_send (c : transport_call) : bool :=
  match c with
  | CallSend _ => true
  | _ => false
  end.

(** No send can come from a connect between an invocation on [st] and the
    next one: the server is initialized already, or the connect of the first
    invocation is fulfilled and is not run again, or the connect makes no
    call to [send]. *)
Definition quiet_connect (st : State) : bool :=
  serverInitialized st || server_connect.2 ||
  forallb (fun c => negb (is_send c)) server_connect.1.

(** Whether a character occurs in a text. *)
Fixpoint occurs (c : ascii) (s : string) : bool :=
  match s with
  | EmptyString => false
  | String c' s' => Ascii.eqb c c' || occurs c s'
  end.

(** A text without a line feed. *)
Definition single_line (s : string) : bool := negb (occurs "010"%char s).

(** The pattern [[?&]connectionId=([^&]+)] matches the text [s] right after
    [pre], with the capture [v]: a [?] or an [&], the text [connectionId=],
    then [v], which is not empty and has no [&], up to the end of [s] or to
    the next [&] (the capture is greedy). *)
Definition pattern_match (s pre v : string) : Prop :=
  exists c tail,
    s = pre +:+ String c ("connectionId=" +:+ v +:+ tail) /\
    (c = "?"%char \/ c = "&"%char) /\
    v <> EmptyString /\
    occurs "&" v = false /\
    (tail = EmptyString \/ exists t, tail = "&" +:+ t).

(** [v] is the capture of the leftmost match in [s]; [s] has no match. *)
Definition first_capture (s v : string) : Prop :=
  exists pre,
    pattern_match s pre v /\
    forall pre' v', (String.length pre' < String.length pre)%nat -> ~ pattern_match s pre' v'.

Definition no_capture (s : string) : Prop := forall pre v, ~ pattern_match s pre v.

(** The extraction as it is specified, four sources tried in order until
    one yields a value that is not empty: (a) the capture of the leftmost
    match of the pattern in the raw path; (b) the [connectionId] entry of the
    query object; (c) the [connectionId] entry of the body object; (d) the
    [connectionId] search parameter of the path parsed as a URL against the
    origin [http://example.com]; [null] when none does.  [field] is the
    entry of an object and [undefined] for anything else. *)
Definition extracted_as_specified (params : FleekFunctionParams) (result : any) : Prop :=
  (exists v, first_capture (path params) v /\ result = JStr v) \/
  (no_capture (path params) /\
   let in_query := field "connectionId" (query params) in
   let in_body := field "connectionId" (body params) in
   if ToBoolean in_query then result = in_query
   else if ToBoolean in_body then result = in_body
   else match URL_searchParams_get ("http://example.com" +:+ path params) "connectionId" with
        | UrlGet (Some v) => if String.eqb v "" then result = JNull else result = JStr v
        | _ => result = JNull
        end).

(** Whether an event is an invocation that reaches [handleSSE] (its log
    line does not throw and its path is that of [/sse]), and the number of
    those in a sequence of events. *)
Definition opens_session (ev : event) : bool :=
  match ev with
  | Invoke _ params =>
      match log_line params with
      | Normal _ => String.eqb (path params) "/sse" || startsWith (path params) "/sse?"
      | Throw _ => false
      end
  | Transport _ => false
  end.

Fixpoint opens (evs : list event) : nat :=
  match evs with
  | [] => 0
  | ev :: evs' => ((if opens_session ev then 1 else 0) + opens evs')%nat
  end.

(** A short life of the module: a session is opened, a message is broadcast,
    the session is polled. *)
Definition short_life : list event :=
  [Invoke 5 open_session;
   Transport (CallSend (JStr "a"));
   Invoke 6 (request "GET" "/poll?connectionId=5" JUndefined JUndefined)].

(** Every cursor counts messages of the broadcast queue: it is not negative
    and, with what is still buffered, does not exceed the length of the
    queue. *)
Definition cursors_bounded (st : State) : Prop :=
  Forall (fun c =>
            0 <= lastEventId c /\
            lastEventId c + Z.of_nat (List.length (messages c))
              <= Z.of_nat (List.length (messageQueue st)))
         (connections st).

(** Every buffered payload is a single line. *)
Definition buffers_single_line (st : State) : Prop :=
  Forall (fun c => Forall (fun msg => single_line msg = true) (messages c))
         (connections st).

(** The statuses of the responses that carry no stream. *)
Definition plain_statuses : list Z := [200; 400; 404; 500].

(** ** Properties *)

(** *** Strings and frames *)

Lemma append_assoc (a b c : string) : (a +:+ b) +:+ c = a +:+ (b +:+ c).
Proof.
  induction a as [|x a IH]; [done|].
  change (String x ((a +:+ b) +:+ c) = String x (a +:+ (b +:+ c))).
  by rewrite IH.
Qed.

Lemma append_empty_r (a : string) : a +:+ EmptyString = a.
Proof.
  induction a as [|x a IH]; [done|].
  change (String x (a +:+ EmptyString) = String x a).
  by rewrite IH.
Qed.

Lemma message_frame_framed (n : Z) (msg : string) :
  message_frame n msg = framed_event n "message" msg.
Proof. reflexivity. Qed.

(** The loop appends, to what it was given, one frame per message with the
    ids [lastEventId + index + 1] counted from the position it started at. *)
Lemma forEach_frame_spec (k index : Z) (msgs : list string) (response : string) :
  forEach_frame k index msgs response =
  response +:+
  concat_text (imap (fun j msg => message_frame (k + index + Z.of_nat j + 1) msg) msgs).
Proof.
  revert index response.
  induction msgs as [|msg rest IH]; intros index response.
  - simpl. by rewrite append_empty_r.
  - cbn [forEach_frame]. rewrite IH, append_assoc, imap_cons.
    cbn [concat_text foldr]. f_equal. f_equal.
    + f_equal. lia.
    + f_equal. apply imap_ext. intros j m _. simpl. f_equal. lia.
Qed.

Lemma forEach_frame_empty_iff (k : Z) (msgs : list string) :
  forEach_frame k 0 msgs EmptyString = EmptyString <-> msgs = [].
Proof.
  split; [|by intros ->].
  destruct msgs as [|msg rest]; [done|].
  rewrite forEach_frame_spec, imap_cons. discriminate.
Qed.

(** *** What the transport calls leave alone *)

Lemma cursors_send (message : any) (st : State) : cursors (send message st) = cursors st.
Proof.
  unfold cursors, send. destruct (isConnected (transport st)); simpl; [|done].
  rewrite <- list_fmap_compose. by apply list_fmap_ext.
Qed.

Lemma cursors_apply_call (st : State) (c : transport_call) :
  cursors (apply_call st c) = cursors st.
Proof. destruct c; simpl; auto using cursors_send. Qed.

Lemma cursors_apply_calls (cs : list transport_call) (st : State) :
  cursors (apply_calls cs st) = cursors st.
Proof.
  revert st. induction cs as [|c cs IH]; intros st; [done|].
  unfold apply_calls in *. simpl. by rewrite IH, cursors_apply_call.
Qed.

Lemma cursors_initServer (st : State) : cursors (initServer st) = cursors st.
Proof.
  unfold initServer. destruct (serverInitialized st); [done|].
  destruct server_connect as [calls fulfilled].
  destruct fulfilled; apply (cursors_apply_calls calls st).
Qed.

Lemma initServer_initialized (st : State) :
  serverInitialized st = true -> initServer st = st.
Proof. unfold initServer. by intros ->. Qed.

Lemma cursors_length (st st' : State) :
  cursors st' = cursors st -> List.length (connections st') = List.length (connections st).
Proof.
  unfold cursors. intros H. apply (f_equal List.length) in H.
  by rewrite !length_fmap in H.
Qed.

Lemma cursors_lookup (st st' : State) (i : nat) (conn : SSEConnection) :
  cursors st' = cursors st -> connections st !! i = Some conn ->
  exists conn', connections st' !! i = Some conn' /\
                id conn' = id conn /\ lastEventId conn' = lastEventId conn.
Proof.
  unfold cursors. intros H Hi.
  apply (f_equal (fun l => l !! i)) in H. rewrite !list_lookup_fmap, Hi in H.
  destruct (connections st' !! i) as [conn'|]; simpl in H; [|done].
  exists conn'. by simplify_eq.
Qed.

(** [find] looks at the ids only. *)
Lemma find_connection_ids (cid : any) (cs : list SSEConnection) :
  fst <$> find_connection cid cs =
  fst <$> list_find (fun s => strict_equals s cid = true) (id <$> cs).
Proof.
  unfold find_connection. rewrite list_find_fmap.
  destruct (list_find _ cs) as [[i c]|]; done.
Qed.

Lemma find_connection_cursors (cid : any) (st st' : State) :
  cursors st' = cursors st ->
  fst <$> find_connection cid (connections st') = fst <$> find_connection cid (connections st).
Proof.
  intros H. rewrite !find_connection_ids. f_equal. f_equal.
  apply (f_equal (fmap fst)) in H. unfold cursors in H.
  rewrite <- !list_fmap_compose in H. exact H.
Qed.

Lemma find_connection_Some (cid : any) (cs : list SSEConnection) (i : nat)
  (conn : SSEConnection) :
  find_connection cid cs = Some (i, conn) ->
  cs !! i = Some conn /\ cid = JStr (id conn).
Proof.
  unfold find_connection. intros (Hi & Heq & _)%list_find_Some. split; [done|].
  destruct cid; simpl in Heq; try done. by apply String.eqb_eq in Heq as ->.
Qed.

(** *** The log line of [main] *)

Lemma or_else_truthy (v d : any) : ToBoolean v = true -> or_else v d = v.
Proof. unfold or_else. by intros ->. Qed.

Lemma log_line_truthy (params : FleekFunctionParams) :
  ToBoolean (getConnectionId params) = true ->
  log_line params = ToString (getConnectionId params).
Proof. intros Hid. unfold log_line. by rewrite or_else_truthy. Qed.

Lemma log_line_falsy (params : FleekFunctionParams) :
  ToBoolean (getConnectionId params) = false ->
  log_line params = Normal "none".
Proof. intros Hid. unfold log_line, or_else. by rewrite Hid. Qed.

Lemma log_line_string (params : FleekFunctionParams) (s : string) :
  getConnectionId params = JStr s -> exists text, log_line params = Normal text.
Proof.
  intros Hs. unfold log_line, or_else. rewrite Hs.
  destruct (ToBoolean (JStr s)); by eexists.
Qed.

Lemma log_line_found (params : FleekFunctionParams) (cs : list SSEConnection)
  (i : nat) (conn : SSEConnection) :
  find_connection (getConnectionId params) cs = Some (i, conn) ->
  exists text, log_line params = Normal text.
Proof.
  intros [_ Hcid]%find_connection_Some. by eapply log_line_string.
Qed.

Lemma log_line_throws (params : FleekFunctionParams) (e : thrown) :
  log_line params = Throw e ->
  ToBoolean (getConnectionId params) = true /\
  ToString (getConnectionId params) = Throw e /\
  forall s, getConnectionId params <> JStr s.
Proof.
  intros Hlog.
  destruct (ToBoolean (getConnectionId params)) eqn:Hid.
  - rewrite (log_line_truthy _ Hid) in Hlog. repeat split; [done|].
    intros s Hs. by rewrite Hs in Hlog.
  - by rewrite (log_line_falsy _ Hid) in Hlog.
Qed.

Lemma find_connection_not_string (cid : any) (cs : list SSEConnection) :
  (forall s, cid <> JStr s) -> find_connection cid cs = None.
Proof.
  intros Hcid. unfold find_connection. apply list_find_None, Forall_lookup.
  intros i c _. destruct cid; simpl; try done. by destruct (Hcid s).
Qed.

Lemma main_throws (now : Z) (params : FleekFunctionParams) (st : State) (e : thrown) :
  log_line params = Throw e -> main now params st = (initServer st, Throw e).
Proof. unfold log_line, main. by intros ->. Qed.

Lemma main_sse (now : Z) (params : FleekFunctionParams) (st : State) (text : string) :
  log_line params = Normal text ->
  route_of params = RouteSSE ->
  main now params st =
    ((handleSSE now params (initServer st)).1,
     Normal (handleSSE now params (initServer st)).2).
Proof. unfold log_line, main. by intros -> ->. Qed.

Lemma main_messages (now : Z) (params : FleekFunctionParams) (st : State) (text : string) :
  log_line params = Normal text ->
  route_of params = RouteMessages ->
  main now params st =
    ((handleMessage (body params) (getConnectionId params) params (initServer st)).1,
     Normal (handleMessage (body params) (getConnectionId params) params
               (initServer st)).2).
Proof.
  unfold log_line, main. intros -> ->.
  by destruct (handleMessage _ _ _ _).
Qed.

Lemma main_help (now : Z) (params : FleekFunctionParams) (st : State) (text : string) :
  log_line params = Normal text ->
  route_of params = RouteHelp ->
  exists r, main now params st = (initServer st, Normal r) /\
            status r = Some 200 /\ rheaders r = None.
Proof. unfold log_line, main. intros -> ->. by eexists. Qed.

(** A poll is the call of [getSSEMessages] on the extracted id: where the log
    line of [main] throws, the id is truthy and no string, the lookup fails
    and the not-found log line of [getSSEMessages] throws the same. *)
Lemma main_poll (now : Z) (params : FleekFunctionParams) (st : State) :
  route_of params = RoutePoll ->
  main now params st = getSSEMessages (getConnectionId params) params (initServer st).
Proof.
  intros Hroute. destruct (log_line params) as [text|e] eqn:Hlog.
  - unfold log_line in Hlog. unfold main. by rewrite Hlog, Hroute.
  - rewrite (main_throws _ _ _ _ Hlog).
    apply log_line_throws in Hlog as (Hid & Hthrow & Hcid).
    unfold getSSEMessages. rewrite Hid; cbn [negb]; rewrite Hid; cbn [negb].
    by rewrite (find_connection_not_string _ _ Hcid), Hthrow.
Qed.

(** The state an invocation leaves. *)
Lemma main_state (now : Z) (params : FleekFunctionParams) (st : State) :
  (main now params st).1 =
    match log_line params with
    | Throw _ => initServer st
    | Normal _ =>
        match route_of params with
        | RouteSSE => (handleSSE now params (initServer st)).1
        | RouteMessages =>
            (handleMessage (body params) (getConnectionId params) params (initServer st)).1
        | RoutePoll => (getSSEMessages (getConnectionId params) params (initServer st)).1
        | RouteHelp => initServer st
        end
    end.
Proof.
  unfold log_line, main. destruct (ToString _); [|done].
  destruct (route_of params); try done.
  by destruct (handleMessage _ _ _ _).
Qed.

(** *** Transport adapter: [send] *)

(** C4.  A [send] on an adapter that is not connected changes nothing (no
    buffer, nothing else of the state) and, being a plain state transformer,
    surfaces no error.  On a connected adapter no session is added or removed
    and every live session's buffer is the old one followed by the serialized
    message, its id and cursor unchanged; so with exactly two open sessions
    the message is the last entry of both buffers. *)
Theorem send_broadcast (message : any) (st : State) :
  (isConnected (transport st) = false -> send message st = st) /\
  (isConnected (transport st) = true ->
     List.length (connections (send message st)) = List.length (connections st) /\
     (forall i conn, connections st !! i = Some conn ->
        connections (send message st) !! i =
        Some {| id := id conn;
                messages := messages conn ++ [as_text (JSON_stringify message)];
                lastEventId := lastEventId conn |}) /\
     (forall a b, connections st = [a; b] ->
        exists a' b', connections (send message st) = [a'; b'] /\
          messages a' = (messages a ++ [as_text (JSON_stringify message)])%list /\
          messages b' = (messages b ++ [as_text (JSON_stringify message)])%list)).
Proof.
  unfold send. split; intros ->; simpl; [done|].
  split; [by rewrite length_map|]. split.
  - intros i conn Hi.
    change (map (push_message message) (connections st))
      with (push_message message <$> connections st).
    by rewrite list_lookup_fmap, Hi.
  - intros a b ->. eexists _, _. split; [reflexivity|]. done.
Qed.

(** *** Unknown session *)

(** C7.  A request whose extracted id is an object with a [toString] entry
    of its own (a body whose [connectionId] is the object with the single
    entry [toString: 1] gives one): the id is not empty and matches no live
    session, whatever the sessions are, yet
    the request is answered neither with the 404 response nor with any
    other.  [main] converts the id to a string for its log line before the
    routing and outside any [try], the conversion throws a [TypeError], and
    [main] throws it, with the state as [initServer] left it. *)
Theorem unknown_session_throws (now : Z) (params : FleekFunctionParams) (st : State)
  (fs : list (string * any)) :
  getConnectionId params = JObj fs ->
  has_own "toString" fs = true ->
  ToBoolean (getConnectionId params) = true /\
  find_connection (getConnectionId params) (connections (initServer st)) = None /\
  main now params st = (initServer st, Throw (ErrorObj ToPrimitive_message)).
Proof.
  intros Hcid Hown.
  assert (ToBoolean (getConnectionId params) = true) as Hid by (by rewrite Hcid).
  split; [done|]. split.
  - apply find_connection_not_string. intros s. by rewrite Hcid.
  - apply main_throws. rewrite (log_line_truthy _ Hid), Hcid. simpl. by rewrite Hown.
Qed.

(** X20.  A request routed to [/messages] (POST) or [/poll] (GET) whose
    extracted id is not empty, converts to a string and holds only safe
    integers, and matches no live session, is answered with status 404 and
    the serialized object that carries the error text, the id asked for and
    the number of live sessions; the handler is not run and no session is
    touched (the state is the one [initServer] left). *)
Theorem unknown_session_404 (now : Z) (params : FleekFunctionParams) (st : State)
  (text : string) :
  route_of params = RouteMessages \/ route_of params = RoutePoll ->
  ToBoolean (getConnectionId params) = true ->
  ToString (getConnectionId params) = Normal text ->
  safe_numbers (getConnectionId params) = true ->
  find_connection (getConnectionId params) (connections st) = None ->
  main now params st =
    (initServer st,
     Normal
       {| status := Some 404;
          rheaders := None;
          rbody := as_text (JSON_stringify (JObj
            [("error", JStr "Connection not found");
             ("connectionId", getConnectionId params);
             ("availableConnections",
              JNum (Z.of_nat (List.length (connections st))))])) |}).
Proof.
  intros Hroute Hid Htext _ Hfind.
  assert (find_connection (getConnectionId params) (connections (initServer st)) = None)
    as Hfind'.
  { pose proof (find_connection_cursors (getConnectionId params) st (initServer st)
                  (cursors_initServer st)) as H.
    rewrite Hfind in H. by destruct (find_connection _ (connections (initServer st))). }
  assert (List.length (connections (initServer st)) = List.length (connections st)) as Hlen.
  { apply cursors_length, cursors_initServer. }
  assert (log_line params = Normal text) as Hlog by (by rewrite log_line_truthy).
  destruct Hroute as [Hroute | Hroute].
  - rewrite (main_messages _ _ _ _ Hlog Hroute).
    unfold handleMessage, handleMessage_try.
    rewrite Hid; cbn [negb]; rewrite Hid; cbn [negb].
    rewrite Hfind', Htext. unfold not_found_response. by rewrite Hlen.
  - rewrite (main_poll _ _ _ Hroute). unfold getSSEMessages.
    rewrite Hid; cbn [negb]; rewrite Hid; cbn [negb].
    rewrite Hfind', Htext. unfold not_found_response. by rewrite Hlen.
Qed.

(** *** Polling *)

Lemma frames_zip (k : Z) (msgs : list string) :
  imap (fun j msg => message_frame (k + 0 + Z.of_nat j + 1) msg) msgs =
  zip_with message_frame
    ((fun index => k + index + 1) <$> seqZ 0 (Z.of_nat (List.length msgs))) msgs.
Proof.
  apply list_eq. intros j.
  rewrite list_lookup_imap, lookup_zip_with, list_lookup_fmap.
  destruct (msgs !! j) as [msg|] eqn:Hj; simpl.
  - apply lookup_lt_Some in Hj.
    rewrite lookup_seqZ_lt by lia. simpl. do 2 f_equal. lia.
  - by destruct (seqZ 0 _ !! j).
Qed.

(** A poll that finds its session: the session keeps its id, loses its
    buffer and advances its cursor by the number of drained messages; the
    body is the ping frame for an empty buffer and otherwise one frame per
    message, in buffer order, numbered by [event_ids]. *)
Lemma getSSEMessages_found (cid : any) (params : FleekFunctionParams) (st : State)
  (i : nat) (conn : SSEConnection) :
  ToBoolean cid = true ->
  find_connection cid (connections st) = Some (i, conn) ->
  getSSEMessages cid params st =
    (set_connections st
       (<[i := {| id := id conn;
                  messages := [];
                  lastEventId := lastEventId conn + Z.of_nat (List.length (messages conn)) |}]>
          (connections st)),
     Normal
       {| status := None;
          rheaders := Some sse_headers;
          rbody := match messages conn with
                   | [] => ping_frame
                   | _ => concat_text (zip_with message_frame (event_ids conn) (messages conn))
                   end |}).
Proof.
  intros Hid Hfind. unfold getSSEMessages.
  rewrite Hid; cbn [negb]; rewrite Hid; cbn [negb]. rewrite Hfind.
  do 3 f_equal.
  destruct (String.eqb_spec (forEach_frame (lastEventId conn) 0 (messages conn) "") "")
    as [Hempty|Hfull].
  - apply forEach_frame_empty_iff in Hempty. by rewrite Hempty.
  - destruct (messages conn) as [|msg rest] eqn:Hmsgs; [done|].
    rewrite forEach_frame_spec, frames_zip. unfold event_ids. by rewrite Hmsgs.
Qed.

Lemma getSSEMessages_not_found (cid : any) (params : FleekFunctionParams) (st : State) :
  ToBoolean cid = true ->
  find_connection cid (connections st) = None ->
  getSSEMessages cid params st =
    (st, match ToString cid with
         | Throw e => Throw e
         | Normal _ => Normal (not_found_response cid st)
         end).
Proof.
  intros Hid Hfind. unfold getSSEMessages.
  rewrite Hid; cbn [negb]; rewrite Hid; cbn [negb]. rewrite Hfind.
  by destruct (ToString cid).
Qed.

Lemma getSSEMessages_missing (cid : any) (params : FleekFunctionParams) (st : State) :
  ToBoolean (if negb (ToBoolean cid) then getConnectionId params else cid) = false ->
  (getSSEMessages cid params st).1 = st.
Proof. intros Hid. unfold getSSEMessages. by rewrite Hid. Qed.

Lemma polled_Some (params : FleekFunctionParams) (st : State) (i : nat)
  (conn : SSEConnection) :
  polled params st = Some (i, conn) ->
  route_of params = RoutePoll /\
  ToBoolean (getConnectionId params) = true /\
  find_connection (getConnectionId params) (connections (initServer st)) = Some (i, conn).
Proof.
  unfold polled. destruct (route_of params); try done.
  by destruct (ToBoolean (getConnectionId params)).
Qed.

Lemma well_framed_messages (ids : list Z) (msgs : list string) :
  well_framed (concat_text (zip_with message_frame ids msgs)).
Proof.
  exists (zip_with (fun n msg => (n, "message", msg)) ids msgs). split.
  - apply Forall_lookup. intros j f (n & msg & -> & _)%lookup_zip_with_Some.
    unfold event_types. simpl. apply list_elem_of_further, list_elem_of_here.
  - f_equal. revert msgs. induction ids as [|n ids IH]; intros [|msg msgs]; try done.
    simpl. by rewrite IH.
Qed.

(** C1 (as amended).  The body of the response that opens a session is the
    three header lines and a blank line followed by the connected event,
    which has an event line, a data line carrying the session id and a blank
    line, and no id line; the opening returns that response whenever the log
    line of [main] does not throw.  The body of a poll that finds its session
    is, for an empty buffer, exactly the ping frame, again without an id
    line, and otherwise exactly the frames of the buffered messages, each an
    id line with an integer, the event line [message], a data line and a
    blank line, with nothing before, between or after them. *)
Theorem event_framing (now : Z) (params : FleekFunctionParams) (st : State) :
  (route_of params = RouteSSE ->
   forall text, log_line params = Normal text ->
   rbody <$> response (main now params st).2 =
     Some ("Content-Type: text/event-stream" +:+ LF +:+
           "Cache-Control: no-cache" +:+ LF +:+
           "Connection: keep-alive" +:+ LF +:+ LF +:+
           unnumbered_event "connected"
             ("{" +:+ QUOTE +:+ "connectionId" +:+ QUOTE +:+ ":" +:+
              QUOTE +:+ Number_toString now +:+ QUOTE +:+ "}"))) /\
  (forall i conn, polled params st = Some (i, conn) ->
   match messages conn with
   | [] =>
       rbody <$> response (main now params st).2 = Some (unnumbered_event "ping" "{}")
   | _ =>
       rbody <$> response (main now params st).2 =
         Some (concat_text (zip_with (fun n msg => framed_event n "message" msg)
                              (event_ids conn) (messages conn))) /\
       well_framed (concat_text (zip_with (fun n msg => framed_event n "message" msg)
                                   (event_ids conn) (messages conn)))
   end).
Proof.
  split.
  - intros Hroute text Hlog. rewrite (main_sse _ _ _ _ Hlog Hroute).
    unfold handleSSE, unnumbered_event.
    cbn [snd rbody response fmap option_fmap option_map].
    rewrite !append_assoc. reflexivity.
  - intros i conn (Hroute & Hid & Hfind)%polled_Some.
    rewrite (main_poll now _ _ Hroute), (getSSEMessages_found _ _ _ _ _ Hid Hfind).
    cbn [snd rbody response fmap option_fmap option_map].
    destruct (messages conn) as [|msg rest] eqn:Hmsgs; [done|].
    split; [done|]. apply well_framed_messages.
Qed.

Lemma event_ids_seqZ (conn : SSEConnection) :
  event_ids conn =
  seqZ (lastEventId conn + 1) (Z.of_nat (List.length (messages conn))).
Proof.
  unfold event_ids.
  replace (lastEventId conn + 1) with ((lastEventId conn + 1) + 0) at 1 by lia.
  rewrite <- fmap_add_seqZ. apply list_fmap_ext. intros _ index _. lia.
Qed.

(** *** Delivery leaves ids and cursors alone *)

Lemma handleIncomingMessage_cursors (message : any) (st : State) :
  cursors (handleIncomingMessage message st).1 = cursors st.
Proof.
  unfold handleIncomingMessage. destruct (onMessageCallback (transport st)) as [cb|]; [|done].
  destruct (cb message) as [calls thrown]. apply cursors_apply_calls.
Qed.

Lemma handleMessage_cursors (body cid : any) (params : FleekFunctionParams) (st : State) :
  cursors (handleMessage body cid params st).1 = cursors st.
Proof.
  unfold handleMessage.
  destruct (negb (ToBoolean (if negb (ToBoolean cid) then getConnectionId params else cid)));
    [done|].
  unfold handleMessage_try.
  destruct (find_connection _ (connections st)) as [[i conn]|];
    [|by destruct (ToString _)].
  destruct (ToString _) as [text|e]; [|done].
  destruct (messageContent body) as [content|e]; [|done].
  pose proof (handleIncomingMessage_cursors content st) as H.
  destruct (handleIncomingMessage content st) as [st' [u|e]]; exact H.
Qed.

(** *** Event ids over the life of a session *)

Local Ltac finish := repeat split; solve [done | lia | congruence | f_equal; lia].

Lemma step_cursor (st : State) (ev : event) (i : nat) (conn : SSEConnection) :
  connections st !! i = Some conn ->
  exists conn',
    connections (step st ev) !! i = Some conn' /\
    id conn' = id conn /\
    lastEventId conn <= lastEventId conn' /\
    emitted_ids i st ev =
      seqZ (lastEventId conn + 1) (lastEventId conn' - lastEventId conn).
Proof.
  intros Hi. destruct ev as [now params|c]; simpl.
  - destruct (cursors_lookup st (initServer st) i conn (cursors_initServer st) Hi)
      as (conn0 & Hi0 & Hid0 & Hk0).
    unfold polled. destruct (route_of params) eqn:Hroute.
    + destruct (log_line params) as [text|e] eqn:Hlog.
      * rewrite (main_sse _ _ _ _ Hlog Hroute).
        exists conn0. unfold handleSSE. simpl.
        rewrite (lookup_app_l_Some _ _ _ _ Hi0), Hk0, Z.sub_diag.
        finish.
      * rewrite (main_throws _ _ _ _ Hlog). simpl.
        exists conn0. rewrite Hk0, Z.sub_diag. finish.
    + destruct (log_line params) as [text|e] eqn:Hlog.
      * rewrite (main_messages _ _ _ _ Hlog Hroute). cbn [fst].
        destruct (cursors_lookup (initServer st)
                    (handleMessage (body params) (getConnectionId params) params
                       (initServer st)).1 i conn0
                    (handleMessage_cursors _ _ _ _) Hi0) as (conn1 & Hi1 & Hid1 & Hk1).
        exists conn1. rewrite Hi1, Hk1, Hk0, Z.sub_diag.
        finish.
      * rewrite (main_throws _ _ _ _ Hlog). simpl.
        exists conn0. rewrite Hk0, Z.sub_diag. finish.
    + rewrite (main_poll _ _ _ Hroute).
      destruct (ToBoolean (getConnectionId params)) eqn:Htrue.
      * destruct (find_connection (getConnectionId params) (connections (initServer st)))
          as [[j c]|] eqn:Hfind.
        -- rewrite (getSSEMessages_found _ _ _ _ _ Htrue Hfind). simpl.
           destruct (find_connection_Some _ _ _ _ Hfind) as [Hj _].
           destruct (decide (j = i)) as [->|Hne].
           ++ assert (c = conn0) as -> by congruence.
              eexists. rewrite list_lookup_insert_eq by (by eapply lookup_lt_Some).
              split; [reflexivity|]. simpl. rewrite event_ids_seqZ, Hk0.
              finish.
           ++ exists conn0. rewrite list_lookup_insert_ne by done.
              rewrite Hk0, Z.sub_diag. finish.
        -- rewrite (getSSEMessages_not_found _ _ _ Htrue Hfind). simpl.
           exists conn0. rewrite Hk0, Z.sub_diag. finish.
      * rewrite getSSEMessages_missing by (by rewrite Htrue; simpl; rewrite Htrue).
        exists conn0. rewrite Hk0, Z.sub_diag. finish.
    + destruct (log_line params) as [text|e] eqn:Hlog.
      * destruct (main_help now _ st _ Hlog Hroute) as (r & -> & _). simpl.
        exists conn0. rewrite Hk0, Z.sub_diag. finish.
      * rewrite (main_throws _ _ _ _ Hlog). simpl.
        exists conn0. rewrite Hk0, Z.sub_diag. finish.
  - destruct (cursors_lookup st (apply_call st c) i conn (cursors_apply_call st c) Hi)
      as (conn' & Hi' & Hid' & Hk').
    exists conn'. rewrite Hk', Z.sub_diag. finish.
Qed.

Lemma run_cursor (evs : list event) (st : State) (i : nat) (conn : SSEConnection) :
  connections st !! i = Some conn ->
  exists conn',
    connections (run st evs) !! i = Some conn' /\
    id conn' = id conn /\
    lastEventId conn <= lastEventId conn' /\
    emitted_ids_run i st evs =
      seqZ (lastEventId conn + 1) (lastEventId conn' - lastEventId conn).
Proof.
  revert st conn. induction evs as [|ev evs IH]; intros st conn Hi.
  - exists conn. simpl. rewrite Z.sub_diag. finish.
  - destruct (step_cursor st ev i conn Hi) as (conn1 & Hi1 & Hid1 & Hle1 & Hem1).
    destruct (IH (step st ev) conn1 Hi1) as (conn2 & Hi2 & Hid2 & Hle2 & Hem2).
    exists conn2. unfold run in *. simpl. rewrite Hem1, Hem2.
    repeat split; try solve [done | lia | congruence].
    replace (lastEventId conn2 - lastEventId conn)
      with ((lastEventId conn1 - lastEventId conn) + (lastEventId conn2 - lastEventId conn1))
      by lia.
    rewrite seqZ_app by lia. do 2 f_equal. lia.
Qed.

(** C2.  A poll that resolves to the session at index [i], whose cursor is
    [k] and whose buffer holds [n] payloads, answers with one message frame
    per payload, in buffer order, carrying the ids [k+1 .. k+n], and leaves
    that session with an empty buffer and the cursor [k+n].  Over any
    sequence of invocations and transport calls, a session that exists at the
    start still exists at the end under the same id, and the event ids
    emitted for it along the way are exactly the consecutive integers from
    its cursor at the start (excluded) to its cursor at the end (included):
    increasing, without gap, repetition or reset. *)
Theorem poll_ids_sequential :
  (forall now params st i conn,
     polled params st = Some (i, conn) ->
     (messages conn <> [] ->
      rbody <$> response (main now params st).2 =
        Some (concat_text (zip_with (fun n msg => framed_event n "message" msg)
                             (seqZ (lastEventId conn + 1)
                                   (Z.of_nat (List.length (messages conn))))
                             (messages conn)))) /\
     connections (main now params st).1 !! i =
       Some {| id := id conn;
               messages := [];
               lastEventId := lastEventId conn + Z.of_nat (List.length (messages conn)) |}) /\
  (forall st evs i conn,
     connections st !! i = Some conn ->
     exists conn',
       connections (run st evs) !! i = Some conn' /\
       id conn' = id conn /\
       lastEventId conn <= lastEventId conn' /\
       emitted_ids_run i st evs =
         seqZ (lastEventId conn + 1) (lastEventId conn' - lastEventId conn)).
Proof.
  split.
  - intros now params st i conn (Hroute & Hid & Hfind)%polled_Some.
    rewrite (main_poll now _ _ Hroute), (getSSEMessages_found _ _ _ _ _ Hid Hfind).
    cbn [fst snd rbody connections set_connections].
    destruct (find_connection_Some _ _ _ _ Hfind) as [Hi _]. split.
    + intros Hne. rewrite <- event_ids_seqZ. by destruct (messages conn).
    + apply list_lookup_insert_eq. by eapply lookup_lt_Some.
  - intros st evs i conn. apply run_cursor.
Qed.

(** *** Draining twice *)

Lemma find_connection_same_ids (cid : any) (cs cs' : list SSEConnection) (i : nat)
  (c : SSEConnection) :
  id <$> cs' = id <$> cs ->
  find_connection cid cs = Some (i, c) ->
  exists c', find_connection cid cs' = Some (i, c') /\ cs' !! i = Some c'.
Proof.
  intros Hids Hfind.
  pose proof (find_connection_ids cid cs) as H.
  pose proof (find_connection_ids cid cs') as H'.
  rewrite Hids, <- H, Hfind in H'. simpl in H'.
  destruct (find_connection cid cs') as [[j c']|] eqn:Hfind'; simplify_eq/=.
  exists c'. split; [done|]. by destruct (find_connection_Some _ _ _ _ Hfind').
Qed.

Lemma connections_apply_calls_no_send (calls : list transport_call) (st : State) :
  forallb (fun c => negb (is_send c)) calls = true ->
  connections (apply_calls calls st) = connections st.
Proof.
  revert st. induction calls as [|c calls IH]; intros st Hcalls; [done|].
  simpl in Hcalls. apply andb_true_iff in Hcalls as [Hc Hcalls].
  unfold apply_calls in *. simpl. rewrite (IH _ Hcalls). by destruct c.
Qed.

Lemma initServer_again (st st' : State) :
  quiet_connect st = true ->
  serverInitialized st' = serverInitialized (initServer st) ->
  connections (initServer st') = connections st'.
Proof.
  unfold quiet_connect, initServer. intros Hquiet Hinit.
  destruct (serverInitialized st') eqn:Hst'; [done|].
  destruct (serverInitialized st) eqn:Hst; [by rewrite Hst in Hinit|].
  destruct server_connect as [calls fulfilled]. simpl in Hquiet.
  destruct fulfilled; [done|].
  by apply connections_apply_calls_no_send.
Qed.

(** C3.  Two consecutive polls for the same id, the first of which resolves
    to a session.  The first answers with exactly the frames of the messages
    buffered at that moment, numbered from the cursor on (the ping event,
    [event: ping] with the data [{}], if there were none), and empties the
    buffer.  When no send comes in between (the only code that can run
    between them is the connect of the second invocation), the second answers
    with the ping event alone and leaves every session as the first left it,
    so no delivered entry is offered again; on an initialized server it
    leaves the whole state as it was. *)
Theorem drain_exactly_once (now1 now2 : Z) (p1 p2 : FleekFunctionParams) (st : State)
  (i : nat) (conn : SSEConnection) :
  polled p1 st = Some (i, conn) ->
  route_of p2 = RoutePoll ->
  getConnectionId p2 = getConnectionId p1 ->
  let first := main now1 p1 st in
  let second := main now2 p2 first.1 in
  rbody <$> response first.2 =
    Some match messages conn with
         | [] => unnumbered_event "ping" "{}"
         | _ => concat_text
                  (zip_with (fun n msg => framed_event n "message" msg)
                     (seqZ (lastEventId conn + 1) (Z.of_nat (List.length (messages conn))))
                     (messages conn))
         end /\
  (exists conn', connections first.1 !! i = Some conn' /\ messages conn' = [] /\
                 id conn' = id conn) /\
  (quiet_connect st = true ->
   rbody <$> response second.2 = Some (unnumbered_event "ping" "{}") /\
   connections second.1 = connections first.1) /\
  (serverInitialized st = true -> second.1 = first.1).
Proof.
  intros (Hroute1 & Hid & Hfind)%polled_Some Hroute2 Hsame first second.
  subst second first.
  rewrite (main_poll now1 _ _ Hroute1), (main_poll now2 _ _ Hroute2), Hsame.
  rewrite (getSSEMessages_found _ _ _ _ _ Hid Hfind).
  cbn [fst snd rbody response fmap option_fmap option_map].
  destruct (find_connection_Some _ _ _ _ Hfind) as [Hi _].
  set (conn1 := {| id := id conn; messages := [];
                   lastEventId := lastEventId conn + Z.of_nat (List.length (messages conn)) |}).
  set (st1 := set_connections (initServer st) (<[i:=conn1]> (connections (initServer st)))).
  assert (connections st1 !! i = Some conn1) as Hi1.
  { apply list_lookup_insert_eq. by eapply lookup_lt_Some. }
  assert (find_connection (getConnectionId p1) (connections st1) = Some (i, conn1)) as Hfind1.
  { destruct (find_connection_same_ids (getConnectionId p1) (connections (initServer st))
                (connections st1) i conn) as (c' & Hf & Hc'); [|done|].
    - unfold st1. simpl. rewrite list_fmap_insert. simpl.
      apply list_insert_id. by rewrite list_lookup_fmap, Hi.
    - by replace conn1 with c' by congruence. }
  assert (forall st2, connections st2 = connections st1 ->
            getSSEMessages (getConnectionId p1) p2 st2 =
              (set_connections st2 (connections st1),
               Normal {| status := None; rheaders := Some sse_headers;
                         rbody := ping_frame |})) as Hsecond.
  { intros st2 Hst2. rewrite <- Hst2 in Hfind1, Hi1.
    rewrite (getSSEMessages_found _ _ _ _ _ Hid Hfind1). cbn [messages conn1].
    do 2 f_equal. rewrite <- Hst2.
    replace {| id := id conn1; messages := [];
               lastEventId := lastEventId conn1 + Z.of_nat (List.length (@nil string)) |}
      with conn1 by (unfold conn1; simpl; f_equal; lia).
    by rewrite (list_insert_id _ _ _ Hi1). }
  split; [|split; [|split]].
  - f_equal. rewrite <- event_ids_seqZ. by destruct (messages conn).
  - by exists conn1.
  - intros Hquiet.
    rewrite (Hsecond (initServer st1)) by (by apply (initServer_again st)).
    done.
  - intros Hinit.
    rewrite (initServer_initialized st1)
      by (unfold st1; simpl; by rewrite (initServer_initialized st Hinit)).
    rewrite (Hsecond st1) by done. by destruct st1.
Qed.

(** C10.  A poll never adds or removes a session and never changes an id, the
    broadcast queue or the transport; every session other than the one the
    lookup returns keeps its buffer and its cursor.  A [GET /poll] request on
    an initialized server is exactly such a poll. *)
Theorem poll_frame (cid : any) (params : FleekFunctionParams) (st : State) :
  let cid' := if negb (ToBoolean cid) then getConnectionId params else cid in
  let st' := (getSSEMessages cid params st).1 in
  id <$> connections st' = id <$> connections st /\
  List.length (connections st') = List.length (connections st) /\
  messageQueue st' = messageQueue st /\
  transport st' = transport st /\
  serverInitialized st' = serverInitialized st /\
  (forall j, (forall c, find_connection cid' (connections st) <> Some (j, c)) ->
             connections st' !! j = connections st !! j) /\
  (forall now, route_of params = RoutePoll -> serverInitialized st = true ->
               main now params st = getSSEMessages (getConnectionId params) params st).
Proof.
  intros cid' st'.
  assert (forall now, route_of params = RoutePoll -> serverInitialized st = true ->
            main now params st = getSSEMessages (getConnectionId params) params st) as Hmain.
  { intros now Hroute Hinit. by rewrite (main_poll now _ _ Hroute), initServer_initialized. }
  subst st'. unfold getSSEMessages. fold cid'.
  destruct (negb (ToBoolean cid')); [by repeat split|].
  destruct (find_connection cid' (connections st)) as [[i conn]|] eqn:Hfind;
    [|by destruct (ToString _); repeat split].
  destruct (find_connection_Some _ _ _ _ Hfind) as [Hi _]. simpl.
  repeat split; try done.
  - rewrite list_fmap_insert. simpl. apply list_insert_id. by rewrite list_lookup_fmap, Hi.
  - by rewrite length_insert.
  - intros j Hj. apply list_lookup_insert_ne. intros ->. by apply (Hj conn).
Qed.

(** *** Delivery *)

Lemma ToString_found (cid : any) (cs : list SSEConnection) (i : nat)
  (conn : SSEConnection) :
  find_connection cid cs = Some (i, conn) -> ToString cid = Normal (id conn).
Proof. by intros [_ ->]%find_connection_Some. Qed.

(** C8.  When the callback registered on the transport throws on the message
    delivered by a [POST /messages] for a known session, [main] still returns
    a response: status 500 with the serialized object carrying the error's
    message (the text [Unknown error] for a thrown value that is not an
    [Error]) and the connection id.  The state it leaves is exactly the one
    produced by the calls the callback itself made on the transport before
    throwing: the router adds nothing.  So the sessions, their ids and their
    cursors are those from before the request, and if the callback sent
    nothing every buffer is as [initServer] left it. *)
Theorem handler_failure_500 (now : Z) (params : FleekFunctionParams) (st : State)
  (i : nat) (conn : SSEConnection) (cb : callback) (content : any)
  (calls : list transport_call) (e : thrown) :
  route_of params = RouteMessages ->
  ToBoolean (getConnectionId params) = true ->
  find_connection (getConnectionId params) (connections (initServer st)) = Some (i, conn) ->
  messageContent (body params) = Normal content ->
  onMessageCallback (transport (initServer st)) = Some cb ->
  cb content = (calls, Some e) ->
  main now params st =
    (apply_calls calls (initServer st),
     Normal
       {| status := Some 500;
          rheaders := None;
          rbody := as_text (JSON_stringify (JObj
            [("error", JStr (error_text e));
             ("connectionId", getConnectionId params)])) |}) /\
  cursors (main now params st).1 = cursors st /\
  (forallb (fun c => negb (is_send c)) calls = true ->
   connections (main now params st).1 = connections (initServer st)).
Proof.
  intros Hroute Hid Hfind Hcontent Hcb Hthrow.
  assert (main now params st =
    (apply_calls calls (initServer st),
     Normal
       {| status := Some 500;
          rheaders := None;
          rbody := as_text (JSON_stringify (JObj
            [("error", JStr (error_text e));
             ("connectionId", getConnectionId params)])) |})) as Hmain.
  { destruct (log_line_found _ _ _ _ Hfind) as [text Hlog].
    rewrite (main_messages now _ _ _ Hlog Hroute).
    unfold handleMessage, handleMessage_try, handleIncomingMessage.
    rewrite Hid; cbn [negb]; rewrite Hid; cbn [negb].
    rewrite Hfind, (ToString_found _ _ _ _ Hfind), Hcontent, Hcb, Hthrow.
    by destruct e. }
  rewrite Hmain. cbn [fst]. split; [done|]. split.
  - by rewrite cursors_apply_calls, cursors_initServer.
  - apply connections_apply_calls_no_send.
Qed.

(** C9 (as amended).  For a [POST /messages] with a known session id and a
    body that is neither [undefined] nor [null], the value handed to the
    transport's incoming-message path is the body itself when its [type] and
    [name] fields are both truthy, otherwise the value of its [message] field
    when that is truthy, otherwise the body itself; the state after the
    request is the one the delivery leaves, and when the delivery does not
    throw the response is status 200 with the serialized object carrying
    status [received] and the session id. *)
Theorem message_normalization (now : Z) (params : FleekFunctionParams) (st : State)
  (i : nat) (conn : SSEConnection) :
  route_of params = RouteMessages ->
  ToBoolean (getConnectionId params) = true ->
  find_connection (getConnectionId params) (connections (initServer st)) = Some (i, conn) ->
  body params <> JUndefined ->
  body params <> JNull ->
  let content :=
    if ToBoolean (field "type" (body params)) && ToBoolean (field "name" (body params))
    then body params
    else if ToBoolean (field "message" (body params))
         then field "message" (body params)
         else body params in
  messageContent (body params) = Normal content /\
  (main now params st).1 = (handleIncomingMessage content (initServer st)).1 /\
  ((handleIncomingMessage content (initServer st)).2 = Normal tt ->
   (main now params st).2 =
     Normal
       {| status := Some 200;
          rheaders := None;
          rbody := as_text (JSON_stringify (JObj
            [("status", JStr "received");
             ("connectionId", getConnectionId params)])) |}).
Proof.
  intros Hroute Hid Hfind Hundef Hnull content.
  assert (messageContent (body params) = Normal content) as Hcontent.
  { subst content. unfold messageContent, or_else.
    destruct (body params) as [| |b|n|s|xs|fs]; try done; simpl;
      repeat (case_match; simplify_eq/=; try done). }
  split; [done|].
  destruct (log_line_found _ _ _ _ Hfind) as [text Hlog].
  rewrite (main_messages now _ _ _ Hlog Hroute).
  unfold handleMessage, handleMessage_try.
  rewrite Hid; cbn [negb]; rewrite Hid; cbn [negb].
  rewrite Hfind, (ToString_found _ _ _ _ Hfind), Hcontent.
  destruct (handleIncomingMessage content (initServer st)) as [st' [[]|e]]; simpl; [|done].
  done.
Qed.

(** *** Session creation *)

(** [handleSSE] appends one session: the decimal text of the clock reading
    as id, an empty buffer, cursor 0; the sessions already there are kept. *)
Lemma handleSSE_session (now : Z) (params : FleekFunctionParams) (st : State) :
  connections (handleSSE now params st).1 =
  (connections st ++
   [{| id := Number_toString now; messages := []; lastEventId := 0 |}])%list.
Proof. reflexivity. Qed.

(** Sessions opened at different clock readings get different ids. *)
Lemma clock_ids_distinct (now1 now2 : Z) :
  now1 <> now2 -> Number_toString now1 <> Number_toString now2.
Proof. intros Hne Heq. apply Hne. by apply (inj pretty). Qed.

(** *** Frames of the wire contract *)

Lemma well_framed_head (body : string) :
  well_framed body -> body = EmptyString \/ exists rest, body = "id: " +:+ rest.
Proof.
  intros (frames & _ & ->). destruct frames as [|f frames]; [by left|].
  right. simpl. unfold framed_event at 1. rewrite !append_assoc. eauto.
Qed.

(** ** Further properties of the router and the registry *)

(** *** Routes and statuses *)

Lemma prefix_cons (a : ascii) (s1 s2 : string) :
  String.prefix (String a s1) s2 = true ->
  exists s2', s2 = String a s2' /\ String.prefix s1 s2' = true.
Proof.
  destruct s2 as [|b s2']; simpl; [done|].
  destruct (ascii_dec a b) as [->|]; [eauto | done].
Qed.




(** X2.  A delivery or a poll from which no connection id can be extracted
    is answered with status 400 and a diagnostic body (the path and, for a
    poll, the query; the path and a hint, for a delivery); the callback is
    not run and no session is touched. *)
Theorem missing_id_400 (now : Z) (params : FleekFunctionParams) (st : State) :
  route_of params = RouteMessages \/ route_of params = RoutePoll ->
  ToBoolean (getConnectionId params) = false ->
  exists r,
  main now params st = (initServer st, Normal r) /\
  status r = Some 400 /\
  rheaders r = None /\
  rbody r =
    match route_of params with
    | RouteMessages =>
        as_text (JSON_stringify (JObj
          [("error", JStr "Missing connectionId parameter");
           ("details", JStr "Please include connectionId in the URL query parameter or request body");
           ("path", JStr (path params))]))
    | _ =>
        as_text (JSON_stringify (JObj
          [("error", JStr "Missing connectionId parameter");
           ("path", JStr (path params));
           ("query", query params)]))
    end.
Proof.
  intros Hroute Hid. pose proof (log_line_falsy _ Hid) as Hlog.
  destruct Hroute as [Hroute | Hroute]; rewrite Hroute.
  - rewrite (main_messages now _ _ _ Hlog Hroute).
    unfold handleMessage. rewrite Hid; cbn [negb]; rewrite Hid; cbn [negb].
    by eexists.
  - rewrite (main_poll now _ _ Hroute).
    unfold getSSEMessages. rewrite Hid; cbn [negb]; rewrite Hid; cbn [negb].
    by eexists.
Qed.

(** X3.  A connection id that is not a string (a number or an object taken
    from the body or the query object) never matches a session, whatever
    the sessions are, and the state is the one [initServer] left.  When the
    id converts to a string, the delivery or poll is answered with status
    404; when the conversion throws (an object with a [toString] entry of
    its own), [main] throws what it threw. *)
Theorem non_string_id_404 (now : Z) (params : FleekFunctionParams) (st : State) :
  route_of params = RouteMessages \/ route_of params = RoutePoll ->
  ToBoolean (getConnectionId params) = true ->
  (forall s, getConnectionId params <> JStr s) ->
  (main now params st).1 = initServer st /\
  match ToString (getConnectionId params) with
  | Normal _ => exists r, (main now params st).2 = Normal r /\ status r = Some 404
  | Throw e => (main now params st).2 = Throw e
  end.
Proof.
  intros Hroute Hid Hcid.
  pose proof (find_connection_not_string _ (connections (initServer st)) Hcid) as Hfind.
  pose proof (log_line_truthy _ Hid) as Hlog.
  destruct (ToString (getConnectionId params)) as [text|e] eqn:Hstr.
  - destruct Hroute as [Hroute | Hroute].
    + rewrite (main_messages now _ _ _ Hlog Hroute).
      unfold handleMessage, handleMessage_try.
      rewrite Hid; cbn [negb]; rewrite Hid; cbn [negb]. rewrite Hfind, Hstr.
      split; [done|]. by eexists.
    + rewrite (main_poll now _ _ Hroute), (getSSEMessages_not_found _ _ _ Hid Hfind), Hstr.
      split; [done|]. by eexists.
  - by rewrite (main_throws now _ st _ Hlog).
Qed.

Lemma handleMessage_known (body cid : any) (params : FleekFunctionParams) (st : State) :
  ToBoolean cid = true ->
  handleMessage body cid params st =
    match handleMessage_try body cid st with
    | (st', Normal response) => (st', response)
    | (st', Throw error) =>
        (st', {| status := Some 500;
                 rheaders := None;
                 rbody := as_text (JSON_stringify (JObj
                   [("error", JStr (error_text error)); ("connectionId", cid)])) |})
    end.
Proof.
  intros Hid. unfold handleMessage.
  rewrite Hid; cbn [negb]; rewrite Hid; cbn [negb].
  destruct (handleMessage_try body cid st) as [st' [response|[message|]]]; done.
Qed.

(** X4.  A delivery for a known session whose body is missing ([undefined])
    or [null] never reaches the callback: reading [body.type] throws, and the
    answer is status 500 carrying that [TypeError]'s message and the
    connection id, with the state as [initServer] left it. *)
Theorem nullish_body_500 (now : Z) (params : FleekFunctionParams) (st : State)
  (i : nat) (conn : SSEConnection) :
  route_of params = RouteMessages ->
  ToBoolean (getConnectionId params) = true ->
  find_connection (getConnectionId params) (connections (initServer st)) = Some (i, conn) ->
  body params = JUndefined \/ body params = JNull ->
  main now params st =
    (initServer st,
     Normal
       {| status := Some 500;
          rheaders := None;
          rbody := as_text (JSON_stringify (JObj
            [("error", JStr (TypeError_message (body params) "type"));
             ("connectionId", getConnectionId params)])) |}).
Proof.
  intros Hroute Hid Hfind Hbody.
  destruct (log_line_found _ _ _ _ Hfind) as [text Hlog].
  rewrite (main_messages now _ _ _ Hlog Hroute), (handleMessage_known _ _ _ _ Hid).
  unfold handleMessage_try. rewrite Hfind, (ToString_found _ _ _ _ Hfind).
  by destruct Hbody as [-> | ->].
Qed.

Lemma messageContent_total (body : any) :
  body <> JUndefined -> body <> JNull ->
  exists content, messageContent body = Normal content.
Proof.
  intros Hundef Hnull. unfold messageContent, or_else.
  destruct body as [| |b|n|s|xs|fs]; try done; simpl;
    repeat (case_match; simplify_eq/=; try done); eauto.
Qed.

(** X5.  With no callback registered on the transport, a delivery for a
    known session with a body that is neither [undefined] nor [null] is
    acknowledged with status 200 although the message goes nowhere: the state
    is the one [initServer] left. *)
Theorem no_callback_200 (now : Z) (params : FleekFunctionParams) (st : State)
  (i : nat) (conn : SSEConnection) :
  route_of params = RouteMessages ->
  ToBoolean (getConnectionId params) = true ->
  find_connection (getConnectionId params) (connections (initServer st)) = Some (i, conn) ->
  body params <> JUndefined ->
  body params <> JNull ->
  onMessageCallback (transport (initServer st)) = None ->
  main now params st =
    (initServer st,
     Normal
       {| status := Some 200;
          rheaders := None;
          rbody := as_text (JSON_stringify (JObj
            [("status", JStr "received");
             ("connectionId", getConnectionId params)])) |}).
Proof.
  intros Hroute Hid Hfind Hundef Hnull Hcb.
  destruct (messageContent_total _ Hundef Hnull) as [content Hcontent].
  destruct (log_line_found _ _ _ _ Hfind) as [text Hlog].
  rewrite (main_messages now _ _ _ Hlog Hroute), (handleMessage_known _ _ _ _ Hid).
  unfold handleMessage_try, handleIncomingMessage.
  by rewrite Hfind, (ToString_found _ _ _ _ Hfind), Hcontent, Hcb.
Qed.

(** X6.  [main] throws exactly when the conversion to a string of the id it
    logs throws, and then it throws the same.  Otherwise it returns a
    response, and every response of [main] either carries no status and the
    three streaming headers (the opening of a session and a successful
    poll), or carries one of the statuses 200, 400, 404, 500 and no
    headers. *)
Theorem response_shape (now : Z) (params : FleekFunctionParams) (st : State) :
  match log_line params, (main now params st).2 with
  | Normal _, Normal r =>
      (status r = None /\ rheaders r = Some sse_headers) \/
      (exists code, status r = Some code /\ code ∈ plain_statuses /\ rheaders r = None)
  | Throw e, Throw e' => e' = e
  | _, _ => False
  end.
Proof.
  assert (forall r code,
            status r = Some code -> In code [200; 400; 404; 500] -> rheaders r = None ->
            exists code, status r = Some code /\ code ∈ plain_statuses /\ rheaders r = None)
    as Hplain.
  { intros r code Hstatus Hcode Hheaders. exists code.
    split; [done|]. split; [by apply list_elem_of_In | done]. }
  destruct (log_line params) as [text|e] eqn:Hlog;
    [|by rewrite (main_throws now _ st _ Hlog)].
  destruct (route_of params) eqn:Hroute.
  - rewrite (main_sse now _ st _ Hlog Hroute). left. done.
  - rewrite (main_messages now _ st _ Hlog Hroute). cbn [snd].
    right. unfold handleMessage, handleMessage_try.
    repeat case_match; simplify_eq;
      (eapply Hplain; [reflexivity | simpl; tauto | reflexivity]).
  - rewrite (main_poll now _ st Hroute).
    destruct (ToBoolean (getConnectionId params)) eqn:Hid.
    + destruct (find_connection (getConnectionId params) (connections (initServer st)))
        as [[i conn]|] eqn:Hfind.
      * rewrite (getSSEMessages_found _ _ _ _ _ Hid Hfind). left. done.
      * rewrite (getSSEMessages_not_found _ _ _ Hid Hfind).
        rewrite <- (log_line_truthy _ Hid), Hlog. cbn [snd].
        right. eapply Hplain; [reflexivity | simpl; tauto | reflexivity].
    + unfold getSSEMessages. rewrite Hid; cbn [negb]; rewrite Hid; cbn [negb snd].
      right. eapply Hplain; [reflexivity | simpl; tauto | reflexivity].
  - destruct (main_help now _ st _ Hlog Hroute) as (r & -> & Hstatus & Hheaders).
    right. eapply Hplain; [exact Hstatus | simpl; tauto | exact Hheaders].
Qed.

(** *** How the registry can change *)

Lemma apply_calls_nil (st : State) : apply_calls [] st = st.
Proof. reflexivity. Qed.

Lemma apply_calls_cons (c : transport_call) (cs : list transport_call) (st : State) :
  apply_calls (c :: cs) st = apply_calls cs (apply_call st c).
Proof. reflexivity. Qed.

Lemma handleMessage_state (body cid : any) (params : FleekFunctionParams) (st : State) :
  exists calls, (handleMessage body cid params st).1 = apply_calls calls st.
Proof.
  unfold handleMessage.
  destruct (negb (ToBoolean (if negb (ToBoolean cid) then getConnectionId params else cid)));
    [by exists []|].
  unfold handleMessage_try.
  destruct (find_connection _ (connections st)) as [[i conn]|];
    [|by destruct (ToString _); exists []].
  destruct (ToString _) as [text|e]; [|by exists []].
  destruct (messageContent body) as [content|e]; [|by exists []].
  unfold handleIncomingMessage.
  destruct (onMessageCallback (transport st)) as [cb|]; [|by exists []].
  destruct (cb content) as [calls [e|]]; by exists calls.
Qed.

Lemma getSSEMessages_state (cid : any) (params : FleekFunctionParams) (st : State) :
  (getSSEMessages cid params st).1 = st \/
  exists cid' i conn,
    find_connection cid' (connections st) = Some (i, conn) /\
    (getSSEMessages cid params st).1 =
      set_connections st
        (<[i := {| id := id conn;
                   messages := [];
                   lastEventId := lastEventId conn + Z.of_nat (List.length (messages conn)) |}]>
           (connections st)).
Proof.
  unfold getSSEMessages.
  set (cid' := if negb (ToBoolean cid) then getConnectionId params else cid).
  destruct (negb (ToBoolean cid')); [by left|].
  destruct (find_connection cid' (connections st)) as [[i conn]|] eqn:Hfind;
    [|by left; destruct (ToString _)].
  right. by exists cid', i, conn.
Qed.

Section Invariant.

(** A property of the registry ([connections] and [messageQueue]) that
    survives the three things the module does to it: a broadcast, the
    opening of a session, the draining of the session a lookup returns. *)
Variable Inv : list SSEConnection -> list any -> Prop.

Hypothesis Inv_broadcast : forall cs q m,
  Inv cs q -> Inv (map (push_message m) cs) (q ++ [m]).

Hypothesis Inv_open : forall cs q now,
  Inv cs q ->
  Inv (cs ++ [{| id := Number_toString now; messages := []; lastEventId := 0 |}]) q.

Hypothesis Inv_drain : forall cs q cid i conn,
  find_connection cid cs = Some (i, conn) ->
  Inv cs q ->
  Inv (<[i := {| id := id conn;
                 messages := [];
                 lastEventId := lastEventId conn + Z.of_nat (List.length (messages conn)) |}]> cs)
      q.

Lemma invariant_apply_call (st : State) (c : transport_call) :
  Inv (connections st) (messageQueue st) ->
  Inv (connections (apply_call st c)) (messageQueue (apply_call st c)).
Proof.
  intros H. destruct c; simpl; try done.
  unfold send. destruct (isConnected (transport st)); simpl; auto.
Qed.

Lemma invariant_apply_calls (cs : list transport_call) (st : State) :
  Inv (connections st) (messageQueue st) ->
  Inv (connections (apply_calls cs st)) (messageQueue (apply_calls cs st)).
Proof.
  revert st. induction cs as [|c cs IH]; intros st H; [done|].
  rewrite apply_calls_cons. by apply IH, invariant_apply_call.
Qed.

Lemma invariant_initServer (st : State) :
  Inv (connections st) (messageQueue st) ->
  Inv (connections (initServer st)) (messageQueue (initServer st)).
Proof.
  intros H. unfold initServer. destruct (serverInitialized st); [done|].
  destruct server_connect as [calls fulfilled].
  destruct fulfilled; simpl; by apply invariant_apply_calls.
Qed.

Lemma invariant_step (st : State) (ev : event) :
  Inv (connections st) (messageQueue st) ->
  Inv (connections (step st ev)) (messageQueue (step st ev)).
Proof.
  intros H. destruct ev as [now params|c]; [|by apply invariant_apply_call].
  apply invariant_initServer in H. simpl. rewrite main_state.
  destruct (log_line params); [|done].
  destruct (route_of params).
  - simpl. by apply Inv_open.
  - destruct (handleMessage_state (body params) (getConnectionId params) params
                (initServer st)) as [calls ->].
    by apply invariant_apply_calls.
  - destruct (getSSEMessages_state (getConnectionId params) params (initServer st))
      as [-> | (cid' & i & conn & Hfind & ->)]; [done|].
    simpl. by eapply Inv_drain.
  - done.
Qed.

Lemma invariant_run (evs : list event) (st : State) :
  Inv (connections st) (messageQueue st) ->
  Inv (connections (run st evs)) (messageQueue (run st evs)).
Proof.
  revert st. induction evs as [|ev evs IH]; intros st H; [done|].
  unfold run in *. simpl. by apply IH, invariant_step.
Qed.

End Invariant.

(** *** Invariants of the registry *)

(** X7.  The broadcast queue is never read and never shortened: whatever
    happens, the queue at the start is a prefix of the queue at the end. *)
Theorem messageQueue_only_grows (st : State) (evs : list event) :
  messageQueue st `prefix_of` messageQueue (run st evs).
Proof.
  apply (invariant_run (fun _ q => messageQueue st `prefix_of` q)); [| |done..].
  - intros cs q m H. by apply prefix_app_r.
  - done.
Qed.

(** X8.  If every session's cursor is not negative and, together with the
    number of payloads still buffered, does not exceed the length of the
    broadcast queue, then the same holds after any sequence of invocations
    and transport calls: an emitted event id never exceeds the number of
    messages broadcast so far. *)
Theorem cursors_stay_bounded (st : State) (evs : list event) :
  cursors_bounded st -> cursors_bounded (run st evs).
Proof.
  unfold cursors_bounded.
  apply (invariant_run
           (fun cs q =>
              Forall (fun c => 0 <= lastEventId c /\
                               lastEventId c + Z.of_nat (List.length (messages c))
                                 <= Z.of_nat (List.length q)) cs)).
  - intros cs q m H. apply Forall_fmap. eapply list.Forall_impl; [exact H|].
    intros c [Hpos Hle]. simpl. rewrite !length_app. simpl. lia.
  - intros cs q now H. apply Forall_app. split; [done|].
    apply Forall_singleton. simpl. lia.
  - intros cs q cid i conn Hfind H.
    apply find_connection_Some in Hfind as [Hi _].
    pose proof (Forall_lookup_1 _ _ _ _ H Hi) as [Hpos Hle].
    apply Forall_insert; [done|]. simpl. lia.
Qed.

(** Single-line buffers stay so, provided the serialization of a message is a
    single line. *)
Lemma buffers_stay_single_line_if (st : State) (evs : list event) :
  (forall m, single_line (as_text (JSON_stringify m)) = true) ->
  buffers_single_line st -> buffers_single_line (run st evs).
Proof.
  intros Hjson. unfold buffers_single_line.
  apply (invariant_run
           (fun cs (_ : list any) =>
              Forall (fun c => Forall (fun msg => single_line msg = true) (messages c)) cs)).
  - intros cs q m H. apply Forall_fmap. eapply list.Forall_impl; [exact H|].
    intros c Hc. simpl. apply Forall_app. split; [done|]. by apply Forall_singleton.
  - intros cs q now H. apply Forall_app. split; [done|]. by apply Forall_singleton.
  - intros cs q cid i conn Hfind H. by apply Forall_insert.
Qed.

(** *** Characters of numerals and of serialized messages *)

Lemma append_cons (c : ascii) (a b : string) : String c a +:+ b = String c (a +:+ b).
Proof. reflexivity. Qed.

Lemma occurs_app (c : ascii) (a b : string) :
  occurs c (a +:+ b) = occurs c a || occurs c b.
Proof.
  induction a as [|x a IH]; [done|].
  rewrite append_cons. simpl. by rewrite IH, orb_assoc.
Qed.

Lemma occurs_pretty_N_go (c : ascii) (x : N) (s : string) :
  (forall n, pretty_N_char n <> c) ->
  occurs c (pretty_N_go x s) = occurs c s.
Proof.
  intros Hc. revert s. induction (N.lt_wf_0 x) as [x _ IH]; intros s.
  destruct (decide (x = 0)%N) as [->|Hx]; [by rewrite pretty_N_go_0|].
  rewrite pretty_N_go_step by lia.
  rewrite IH by (apply N.div_lt; lia). simpl.
  destruct (Ascii.eqb_spec c (pretty_N_char (x `mod` 10)%N)) as [->|_]; [|done].
  by destruct (Hc (x `mod` 10)%N).
Qed.

Lemma pretty_N_go_nonempty (x : N) (s : string) :
  s <> EmptyString -> pretty_N_go x s <> EmptyString.
Proof.
  revert s. induction (N.lt_wf_0 x) as [x _ IH]; intros s Hs.
  destruct (decide (x = 0)%N) as [->|Hx]; [by rewrite pretty_N_go_0|].
  rewrite pretty_N_go_step by lia. apply IH; [apply N.div_lt; lia | done].
Qed.

(** The decimal text of an integer is not empty. *)
Lemma Number_toString_nonempty (n : Z) : Number_toString n <> EmptyString.
Proof.
  assert (forall x : N, pretty x <> EmptyString) as HN.
  { intros x. unfold pretty, pretty_N. destruct (decide (x = 0)%N); [done|].
    rewrite pretty_N_go_step by lia. by apply pretty_N_go_nonempty. }
  unfold Number_toString, pretty, pretty_Z.
  destruct n as [|x|x]; [done | apply HN | done].
Qed.

(** A character that is neither a digit nor the minus sign does not occur in
    the decimal text of an integer. *)
Lemma occurs_Number_toString (c : ascii) (n : Z) :
  (forall d, pretty_N_char d <> c) -> c <> "-"%char ->
  occurs c (Number_toString n) = false.
Proof.
  intros Hdigit Hminus.
  assert (forall x : N, occurs c (pretty x) = false) as HN.
  { intros x. unfold pretty, pretty_N. destruct (decide (x = 0)%N).
    - simpl. destruct (Ascii.eqb_spec c "0") as [->|_]; [|done].
      by destruct (Hdigit 0%N).
    - by rewrite occurs_pretty_N_go. }
  unfold Number_toString.
  destruct n as [|x|x].
  - apply (HN 0%N).
  - apply (HN (Npos x)).
  - change (occurs c ("-" +:+ pretty (Npos x)) = false).
    rewrite occurs_app, (HN (Npos x)). simpl.
    by destruct (Ascii.eqb_spec c "-").
Qed.

Lemma not_a_digit (c : ascii) :
  c = "010"%char \/ c = "&"%char -> forall d, pretty_N_char d <> c.
Proof.
  intros [-> | ->] d; unfold pretty_N_char; by repeat case_match.
Qed.

Lemma single_line_app (a b : string) :
  single_line (a +:+ b) = single_line a && single_line b.
Proof. unfold single_line. by rewrite occurs_app, negb_orb. Qed.

Lemma single_line_quote_char (c : ascii) : single_line (quote_char c) = true.
Proof. destruct c as [[] [] [] [] [] [] [] []]; reflexivity. Qed.

Lemma single_line_QuoteJSONString (s : string) : single_line (QuoteJSONString s) = true.
Proof.
  unfold QuoteJSONString. rewrite !single_line_app.
  assert (single_line (quote_chars s) = true) as ->.
  { induction s as [|c s IH]; [done|].
    simpl. by rewrite single_line_app, single_line_quote_char, IH. }
  reflexivity.
Qed.

Lemma single_line_Number_toString (n : Z) : single_line (Number_toString n) = true.
Proof.
  unfold single_line. rewrite occurs_Number_toString; [done | | done].
  apply not_a_digit. by left.
Qed.

Lemma single_line_join (sep : string) (parts : list string) :
  single_line sep = true ->
  Forall (fun part => single_line part = true) parts ->
  single_line (join sep parts) = true.
Proof.
  intros Hsep Hparts. unfold join.
  induction Hparts as [|part parts Hpart _ IH]; [done|].
  destruct parts as [|part' parts]; [done|].
  change (String.concat sep (part :: part' :: parts))
    with (part +:+ sep +:+ String.concat sep (part' :: parts)).
  by rewrite !single_line_app, Hpart, Hsep, IH.
Qed.

(** The one-argument [JSON.stringify] never produces a line feed. *)
Lemma SerializeJSONProperty_single_line (v : any) (indent s : string) :
  SerializeJSONProperty "" indent v = Some s -> single_line s = true.
Proof.
  revert v indent s. fix IH 1.
  intros [| |b|n|s0|xs|fs] indent s Hs; simpl in Hs; simplify_eq.
  - done.
  - by destruct b.
  - apply single_line_Number_toString.
  - apply single_line_QuoteJSONString.
  - match goal with
    | |- context [map ?f xs] =>
        assert (Forall (fun part => single_line part = true) (map f xs)) as Hparts
    end.
    { induction xs as [|x xs IHxs]; constructor; [|exact IHxs].
      destruct (SerializeJSONProperty "" _ x) as [sx|] eqn:Hx; [|done].
      exact (IH _ _ _ Hx). }
    destruct (map _ xs) as [|part parts]; [done|].
    rewrite !single_line_app, single_line_join by done. done.
  - match goal with
    | |- context [omap ?f fs] =>
        assert (Forall (fun part => single_line part = true) (omap f fs)) as Hparts
    end.
    { induction fs as [|[k x] fs IHfs]; [constructor|].
      simpl. destruct (SerializeJSONProperty "" _ x) as [sx|] eqn:Hx; [|exact IHfs].
      constructor; [|exact IHfs].
      rewrite !single_line_app, single_line_QuoteJSONString, (IH _ _ _ Hx). done. }
    destruct (omap _ fs) as [|part parts]; [done|].
    rewrite !single_line_app, single_line_join by done. done.
Qed.

Lemma JSON_stringify_single_line (m : any) :
  single_line (as_text (JSON_stringify m)) = true.
Proof.
  unfold JSON_stringify. destruct (SerializeJSONProperty "" "" m) as [s|] eqn:Hs; [|done].
  exact (SerializeJSONProperty_single_line _ _ _ Hs).
Qed.

(** X9.  Every payload [send] buffers is a single line: if no buffered
    payload contains a line feed, none does after any sequence of invocations
    and transport calls, so a blank line in a poll body always ends a
    frame. *)
Theorem buffers_stay_single_line (st : State) (evs : list event) :
  buffers_single_line st -> buffers_single_line (run st evs).
Proof. apply buffers_stay_single_line_if, JSON_stringify_single_line. Qed.

(** *** Sessions over time *)

Lemma getSSEMessages_length (cid : any) (params : FleekFunctionParams) (st : State) :
  List.length (connections (getSSEMessages cid params st).1) = List.length (connections st).
Proof.
  destruct (getSSEMessages_state cid params st) as [-> | (cid' & i & conn & _ & ->)];
    [done|].
  simpl. by rewrite length_insert.
Qed.

Lemma route_of_sse (params : FleekFunctionParams) :
  String.eqb (path params) "/sse" || startsWith (path params) "/sse?" =
  match route_of params with
  | RouteSSE => true
  | _ => false
  end.
Proof.
  unfold route_of. destruct (_ || _); [done|]. by repeat case_match.
Qed.

Lemma step_length (st : State) (ev : event) :
  List.length (connections (step st ev)) =
  (List.length (connections st) + (if opens_session ev then 1 else 0))%nat.
Proof.
  destruct ev as [now params|c]; simpl.
  - pose proof (cursors_length _ _ (cursors_initServer st)) as Hinit.
    rewrite main_state, route_of_sse. destruct (log_line params); [|lia].
    destruct (route_of params).
    + unfold handleSSE. simpl. rewrite length_app, Hinit. done.
    + rewrite (cursors_length _ _ (handleMessage_cursors _ _ _ _)), Hinit. lia.
    + rewrite getSSEMessages_length, Hinit. lia.
    + simpl. lia.
  - rewrite (cursors_length _ _ (cursors_apply_call st c)). lia.
Qed.

(** X10.  Sessions are only ever added, one per invocation that reaches
    [handleSSE] (its path is [/sse] or starts with [/sse?], whatever its
    method or body, and the log line of [main] before the routing does not
    throw), and never removed: after any sequence of events the number of
    live sessions is the number at the start plus the number of such
    invocations. *)
Theorem session_count (st : State) (evs : list event) :
  List.length (connections (run st evs)) =
  (List.length (connections st) + opens evs)%nat.
Proof.
  revert st. induction evs as [|ev evs IH]; intros st; [simpl; lia|].
  unfold run in *. simpl. rewrite IH, step_length. lia.
Qed.

Lemma serverInitialized_apply_calls (cs : list transport_call) (st : State) :
  serverInitialized (apply_calls cs st) = serverInitialized st.
Proof.
  revert st. induction cs as [|c cs IH]; intros st; [done|].
  rewrite apply_calls_cons, IH. destruct c; simpl; try done.
  unfold send. by destruct (isConnected (transport st)).
Qed.

Lemma serverInitialized_step (st : State) (ev : event) :
  serverInitialized st = true -> serverInitialized (step st ev) = true.
Proof.
  intros Hinit. destruct ev as [now params|c]; simpl.
  - rewrite main_state, (initServer_initialized st Hinit).
    destruct (log_line params); [|done].
    destruct (route_of params); try done.
    + destruct (handleMessage_state (body params) (getConnectionId params) params st)
        as [calls ->].
      by rewrite serverInitialized_apply_calls.
    + by destruct (getSSEMessages_state (getConnectionId params) params st)
        as [-> | (cid' & i & conn & _ & ->)].
  - by rewrite <- (serverInitialized_apply_calls [c] st) in Hinit.
Qed.

(** X11.  Once [server.connect] has succeeded it is never called again: from
    a state in which the server is initialized, every later state is
    initialized too, so [initServer] does nothing in any later invocation. *)
Theorem connect_runs_once (st : State) (evs : list event) :
  serverInitialized st = true ->
  serverInitialized (run st evs) = true /\
  initServer (run st evs) = run st evs.
Proof.
  intros Hinit.
  assert (serverInitialized (run st evs) = true) as Hrun.
  { revert st Hinit. induction evs as [|ev evs IH]; intros st Hinit; [done|].
    unfold run in *. simpl. by apply IH, serverInitialized_step. }
  split; [done|]. by apply initServer_initialized.
Qed.

(** X12.  [find] returns the first session with the id asked for, so a
    session that shares its id with an earlier one can never be polled: over
    any sequence of invocations and transport calls its cursor does not move
    and its buffer is only ever extended, never drained. *)
Theorem shadowed_session_never_drained (st : State) (evs : list event) (i j : nat)
  (ci cj : SSEConnection) :
  (i < j)%nat ->
  connections st !! i = Some ci ->
  connections st !! j = Some cj ->
  id ci = id cj ->
  exists cj',
    connections (run st evs) !! j = Some cj' /\
    id cj' = id cj /\
    lastEventId cj' = lastEventId cj /\
    messages cj `prefix_of` messages cj'.
Proof.
  intros Hlt Hi Hj Hid.
  pose (Inv := fun (cs : list SSEConnection) (_ : list any) =>
    exists ci' cj', cs !! i = Some ci' /\ cs !! j = Some cj' /\
      id ci' = id cj /\ id cj' = id cj /\ lastEventId cj' = lastEventId cj /\
      messages cj `prefix_of` messages cj').
  assert (Inv (connections (run st evs)) (messageQueue (run st evs))) as Hrun.
  { apply (invariant_run Inv); [| | |by exists ci, cj].
    - intros cs q m (ci' & cj' & Hi' & Hj' & Hidi & Hidj & Hk & Hpre).
      exists (push_message m ci'), (push_message m cj').
      change (map (push_message m) cs) with (push_message m <$> cs).
      rewrite !list_lookup_fmap, Hi', Hj'. simpl.
      repeat split; try done. by apply prefix_app_r.
    - intros cs q now (ci' & cj' & Hi' & Hj' & Hrest).
      exists ci', cj'. by rewrite !(lookup_app_l_Some _ _ _ _ Hi'), !(lookup_app_l_Some _ _ _ _ Hj').
    - intros cs q cid i0 conn Hfind (ci' & cj' & Hi' & Hj' & Hidi & Hidj & Hk & Hpre).
      unfold find_connection in Hfind.
      apply list_find_Some in Hfind as (Hi0 & HP & Hleast).
      assert (i0 <> j) as Hne.
      { intros ->. assert (conn = cj') as -> by congruence.
        apply (Hleast i ci' Hi' Hlt). by rewrite Hidi, <- Hidj. }
      destruct (decide (i0 = i)) as [->|Hnei].
      + assert (conn = ci') as -> by congruence.
        eexists _, cj'. rewrite list_lookup_insert_eq by (by eapply lookup_lt_Some).
        rewrite list_lookup_insert_ne by done. by repeat split.
      + exists ci', cj'. rewrite !list_lookup_insert_ne by done. by repeat split. }
  destruct Hrun as (ci' & cj' & _ & Hj' & _ & Hrest). by exists cj'.
Qed.

(** X13.  A message sent on a connected adapter is delivered by the next poll
    of any session as the last frame: for a session with cursor [k] and [n]
    payloads buffered, the poll after the [send] answers with the [n+1]
    frames numbered [k+1 .. k+n+1], the new one carrying the serialized
    message, and leaves the cursor at [k+n+1]. *)
Theorem send_then_poll (message cid : any) (params : FleekFunctionParams) (st : State)
  (i : nat) (conn : SSEConnection) :
  isConnected (transport st) = true ->
  ToBoolean cid = true ->
  find_connection cid (connections st) = Some (i, conn) ->
  rbody <$> response (getSSEMessages cid params (send message st)).2 =
    Some (concat_text (zip_with (fun n msg => framed_event n "message" msg)
                         (seqZ (lastEventId conn + 1)
                               (Z.of_nat (List.length (messages conn)) + 1))
                         (messages conn ++ [as_text (JSON_stringify message)]))) /\
  connections (getSSEMessages cid params (send message st)).1 !! i =
    Some {| id := id conn;
            messages := [];
            lastEventId := lastEventId conn + Z.of_nat (List.length (messages conn)) + 1 |}.
Proof.
  intros Hconnected Hid Hfind.
  destruct (find_connection_Some _ _ _ _ Hfind) as [Hi _].
  assert (connections (send message st) = push_message message <$> connections st) as Hsend.
  { unfold send. by rewrite Hconnected. }
  destruct (find_connection_same_ids cid (connections st) (connections (send message st))
              i conn) as (conn' & Hfind' & Hi'); [|done|].
  { rewrite Hsend, <- list_fmap_compose. by apply list_fmap_ext. }
  assert (conn' = push_message message conn) as ->.
  { rewrite Hsend, list_lookup_fmap, Hi in Hi'. by simplify_eq/=. }
  rewrite (getSSEMessages_found _ _ _ _ _ Hid Hfind').
  cbn [fst snd rbody connections set_connections response fmap option_fmap option_map].
  rewrite event_ids_seqZ. simpl. rewrite length_app. simpl. split.
  - destruct (messages conn ++ [as_text (JSON_stringify message)])%list eqn:Happ.
    + by apply app_nil in Happ as [_ ?].
    + do 4 f_equal. lia.
  - rewrite list_lookup_insert_eq
      by (rewrite Hsend, length_fmap; by eapply lookup_lt_Some).
    do 2 f_equal. lia.
Qed.

(** *** The id in the path *)

Lemma substring_all (r : string) : String.substring 0 (String.length r) r = r.
Proof. induction r as [|c r IH]; simpl; [done | by rewrite IH]. Qed.

Lemma not_amp_run_app (v tail : string) :
  occurs "&" v = false ->
  tail = EmptyString \/ (exists t, tail = "&" +:+ t) ->
  not_amp_run (v +:+ tail) = v.
Proof.
  intros Hv Htail. induction v as [|c v IH].
  - destruct Htail as [-> | [t ->]]; reflexivity.
  - rewrite append_cons. cbn [occurs not_amp_run] in *.
    apply orb_false_iff in Hv as [Hc Hv].
    rewrite Ascii.eqb_sym, Hc. by rewrite (IH Hv).
Qed.

Lemma includes_app_r (a b x : string) :
  includes b x = true -> includes (a +:+ b) x = true.
Proof.
  intros Hb. induction a as [|c a IH]; [done|].
  rewrite append_cons. simpl. rewrite IH. apply orb_true_r.
Qed.

Lemma includes_here (r : string) :
  includes ("?connectionId=" +:+ r) "connectionId=" = true.
Proof. by destruct r. Qed.

Lemma match_connectionId_here (c : ascii) (v tail : string) :
  c = "?"%char \/ c = "&"%char ->
  v <> EmptyString ->
  occurs "&" v = false ->
  tail = EmptyString \/ (exists t, tail = "&" +:+ t) ->
  match_connectionId (String c ("connectionId=" +:+ v +:+ tail)) = Some v.
Proof.
  intros Hc Hv Hamp Htail.
  assert (String.substring 13 (String.length ("connectionId=" +:+ v +:+ tail) - 13)
            ("connectionId=" +:+ v +:+ tail) = v +:+ tail) as Hrest.
  { change (String.substring 0 (String.length (v +:+ tail) - 0) (v +:+ tail) = v +:+ tail).
    rewrite Nat.sub_0_r. apply substring_all. }
  cbn [match_connectionId]. rewrite Hrest, (not_amp_run_app _ _ Hamp Htail).
  replace (Ascii.eqb c "?" || Ascii.eqb c "&") with true
    by (by destruct Hc as [-> | ->]).
  change (String.prefix "connectionId=" ("connectionId=" +:+ v +:+ tail))
    with (String.prefix "" (v +:+ tail)).
  replace (String.prefix "" (v +:+ tail)) with true by (by destruct (v +:+ tail)).
  simpl. by destruct v.
Qed.

Lemma match_connectionId_query (p v tail : string) :
  occurs "?" p = false ->
  occurs "&" p = false ->
  v <> EmptyString ->
  occurs "&" v = false ->
  tail = EmptyString \/ (exists t, tail = "&" +:+ t) ->
  match_connectionId (p +:+ "?connectionId=" +:+ v +:+ tail) = Some v.
Proof.
  intros Hq Ha Hv Hamp Htail. induction p as [|c p IH].
  - apply (match_connectionId_here "?" v tail); auto.
  - rewrite append_cons. cbn [occurs] in Hq, Ha.
    apply orb_false_iff in Hq as [Hcq Hq]. apply orb_false_iff in Ha as [Hca Ha].
    cbn [match_connectionId].
    rewrite (Ascii.eqb_sym c "?"), Hcq, (Ascii.eqb_sym c "&"), Hca.
    cbn [orb andb]. by apply IH.
Qed.

Lemma getConnectionId_from_path (params : FleekFunctionParams) (p v tail : string) :
  path params = p +:+ "?connectionId=" +:+ v +:+ tail ->
  occurs "?" p = false ->
  occurs "&" p = false ->
  v <> EmptyString ->
  occurs "&" v = false ->
  tail = EmptyString \/ (exists t, tail = "&" +:+ t) ->
  getConnectionId params = JStr v.
Proof.
  intros Hpath Hq Ha Hv Hamp Htail.
  unfold getConnectionId, source_path. rewrite Hpath.
  rewrite (match_connectionId_query _ _ _ Hq Ha Hv Hamp Htail).
  rewrite (includes_app_r p _ _ (includes_here (v +:+ tail))).
  replace (String.eqb (p +:+ "?connectionId=" +:+ v +:+ tail) "") with false
    by (by destruct p).
  reflexivity.
Qed.

(** *** Session-id extraction *)

Lemma not_amp_run_spec (rest : string) :
  exists tail,
    rest = not_amp_run rest +:+ tail /\
    occurs "&" (not_amp_run rest) = false /\
    (tail = EmptyString \/ exists t, tail = "&" +:+ t).
Proof.
  induction rest as [|c rest IH]; [by exists EmptyString; auto|].
  destruct IH as (tail & Hrest & Hamp & Htail).
  cbn [not_amp_run]. destruct (Ascii.eqb_spec c "&") as [->|Hc].
  - exists (String "&" rest). split; [done|]. split; [done|]. right. by exists rest.
  - exists tail. rewrite append_cons. split; [by rewrite <- Hrest|].
    split; [|done]. cbn [occurs]. rewrite Hamp, orb_false_r.
    apply Ascii.eqb_neq. congruence.
Qed.

Lemma prefix_connectionId (s : string) :
  String.prefix "connectionId=" s = true -> exists rest, s = "connectionId=" +:+ rest.
Proof.
  intros H.
  repeat (apply prefix_cons in H as (? & -> & H)).
  by eexists.
Qed.

Lemma pattern_match_shift (c : ascii) (s pre v : string) :
  pattern_match (String c s) (String c pre) v <-> pattern_match s pre v.
Proof.
  split; intros (c0 & tail & Hs & Hrest); exists c0, tail; (split; [|done]).
  - rewrite append_cons in Hs. congruence.
  - rewrite append_cons. congruence.
Qed.

Lemma pattern_match_cons (c c' : ascii) (s pre v : string) :
  pattern_match (String c s) (String c' pre) v -> c' = c.
Proof. intros (c0 & tail & Hs & _). rewrite append_cons in Hs. congruence. Qed.

Lemma match_connectionId_head (c : ascii) (s : string) :
  (exists v, pattern_match (String c s) EmptyString v /\
             match_connectionId (String c s) = Some v) \/
  ((forall v, ~ pattern_match (String c s) EmptyString v) /\
   match_connectionId (String c s) = match_connectionId s).
Proof.
  cbn [match_connectionId].
  destruct (Ascii.eqb c "?" || Ascii.eqb c "&") eqn:Hsep; cycle 1.
  { right. split; [|done]. intros v (c0 & tail & Hs & [-> | ->] & _);
      change (EmptyString +:+ ?x) with x in Hs; simplify_eq; done. }
  destruct (String.prefix "connectionId=" s) eqn:Hpre; cycle 1.
  { right. split; [|done]. intros v (c0 & tail & Hs & _).
    change (EmptyString +:+ ?x) with x in Hs. simplify_eq.
    change (String.prefix "connectionId=" ("connectionId=" +:+ v +:+ tail))
      with (String.prefix "" (v +:+ tail)) in Hpre.
    by destruct (v +:+ tail). }
  apply prefix_connectionId in Hpre as [rest ->].
  assert (String.substring 13 (String.length ("connectionId=" +:+ rest) - 13)
            ("connectionId=" +:+ rest) = rest) as ->.
  { change (String.substring 0 (String.length rest - 0) rest = rest).
    rewrite Nat.sub_0_r. apply substring_all. }
  cbn [andb].
  destruct (not_amp_run_spec rest) as (tail & Hrest & Hamp & Htail).
  destruct (not_amp_run rest) as [|a run] eqn:Hrun.
  - right. split; [|done]. intros v (c0 & tail' & Hs & _ & Hv & Hvamp & Htail').
    change (EmptyString +:+ ?x) with x in Hs. simplify_eq.
    change (EmptyString +:+ tail) with tail in *. subst tail.
    rewrite (not_amp_run_app _ _ Hvamp Htail') in Hrun. done.
  - left. exists (String a run). split; [|done].
    exists c, tail. split; [by rewrite Hrest at 1|].
    split; [|done].
    apply orb_true_iff in Hsep as [->%Ascii.eqb_eq | ->%Ascii.eqb_eq]; auto.
Qed.

Lemma append_inv_head (pre a b : string) : pre +:+ a = pre +:+ b -> a = b.
Proof.
  induction pre as [|c pre IH]; [done|]. rewrite !append_cons. intros [= H]. auto.
Qed.

Lemma pattern_match_unique (s pre v v' : string) :
  pattern_match s pre v -> pattern_match s pre v' -> v = v'.
Proof.
  intros (c & tail & -> & _ & _ & Hamp & Htail) (c' & tail' & Hs & _ & _ & Hamp' & Htail').
  apply append_inv_head in Hs. injection Hs as _ Hs.
  change (v +:+ tail = v' +:+ tail') in Hs.
  apply (f_equal not_amp_run) in Hs.
  by rewrite !not_amp_run_app in Hs.
Qed.

Lemma match_connectionId_Some (s v : string) :
  match_connectionId s = Some v <-> first_capture s v.
Proof.
  revert v. induction s as [|c s IH]; intros v.
  { split; [done|]. intros (pre & (c0 & tail & Hs & _) & _). by destruct pre. }
  destruct (match_connectionId_head c s) as [(v0 & Hhead & ->) | [Hhead ->]].
  - split.
    + intros [= ->]. exists EmptyString. split; [done|]. simpl. lia.
    + intros (pre & Hpre & Hleft). destruct pre as [|c' pre].
      * by rewrite (pattern_match_unique _ _ _ _ Hpre Hhead).
      * destruct (Hleft EmptyString v0); [simpl; lia | done].
  - rewrite IH. split.
    + intros (pre & Hpre & Hleft). exists (String c pre). split.
      * by apply (proj2 (pattern_match_shift c _ _ _)).
      * intros [|c' pre'] v' Hlen Hm; [by apply (Hhead v')|].
        pose proof (pattern_match_cons _ _ _ _ _ Hm) as ->.
        apply (proj1 (pattern_match_shift c _ _ _)) in Hm.
        apply (Hleft pre' v'); [simpl in Hlen; lia | done].
    + intros (pre & Hpre & Hleft). destruct pre as [|c' pre]; [by destruct (Hhead v)|].
      pose proof (pattern_match_cons _ _ _ _ _ Hpre) as ->.
      exists pre. split; [by apply (proj1 (pattern_match_shift c _ _ _))|].
      intros pre' v' Hlen Hm. apply (Hleft (String c pre') v'); [simpl; lia|].
      by apply (proj2 (pattern_match_shift c _ _ _)).
Qed.

Lemma match_connectionId_None (s : string) :
  match_connectionId s = None <-> no_capture s.
Proof.
  induction s as [|c s IH].
  { split; [|done]. intros _ pre v (c0 & tail & Hs & _). by destruct pre. }
  destruct (match_connectionId_head c s) as [(v0 & Hhead & ->) | [Hhead ->]].
  - split; [done|]. intros Hno. by destruct (Hno EmptyString v0).
  - rewrite IH. split.
    + intros Hno [|c' pre] v Hm; [by apply (Hhead v)|].
      pose proof (pattern_match_cons _ _ _ _ _ Hm) as ->.
      apply (proj1 (pattern_match_shift c _ _ _)) in Hm. by apply (Hno pre v).
    + intros Hno pre v Hm. apply (Hno (String c pre) v). by apply (proj2 (pattern_match_shift c _ _ _)).
Qed.

Lemma pattern_match_includes (s pre v : string) :
  pattern_match s pre v -> includes s "connectionId=" = true /\ s <> EmptyString.
Proof.
  intros (c & tail & -> & _). split; [|by destruct pre].
  apply includes_app_r. cbn [includes].
  replace (includes ("connectionId=" +:+ v +:+ tail) "connectionId=") with true;
    [apply orb_true_r|].
  by destruct (v +:+ tail).
Qed.

Lemma source_query_field (params : FleekFunctionParams) :
  source_query params =
    if ToBoolean (field "connectionId" (query params))
    then Some (field "connectionId" (query params)) else None.
Proof.
  unfold source_query.
  destruct (query params) as [| |[]|n|s|xs|fs]; cbn [ToBoolean Get field]; try done;
    by repeat case_match.
Qed.

Lemma source_body_field (params : FleekFunctionParams) :
  source_body params =
    if ToBoolean (field "connectionId" (body params))
    then Some (field "connectionId" (body params)) else None.
Proof.
  unfold source_body.
  destruct (body params) as [| |[]|n|s|xs|fs];
    cbn [ToBoolean typeof_is_object andb Get field]; try done;
    by repeat case_match.
Qed.

Lemma getConnectionId_unfold (params : FleekFunctionParams) :
  getConnectionId params =
    match match_connectionId (path params) with
    | Some v => JStr v
    | None =>
        let in_query := field "connectionId" (query params) in
        let in_body := field "connectionId" (body params) in
        if ToBoolean in_query then in_query
        else if ToBoolean in_body then in_body
        else match URL_searchParams_get ("http://example.com" +:+ path params)
                     "connectionId" with
             | UrlGet (Some v) => if String.eqb v "" then JNull else JStr v
             | _ => JNull
             end
    end.
Proof.
  unfold getConnectionId.
  assert (source_path params = JStr <$> match_connectionId (path params)) as ->.
  { unfold source_path.
    destruct (match_connectionId (path params)) as [v|] eqn:Hmatch; [|by case_match].
    apply match_connectionId_Some in Hmatch as (pre & Hpre & _).
    apply pattern_match_includes in Hpre as [-> Hne].
    by apply String.eqb_neq in Hne as ->. }
  destruct (match_connectionId (path params)) as [v|]; [done|].
  cbn [fmap option_fmap option_map].
  rewrite source_query_field, source_body_field. unfold source_url. cbn zeta.
  destruct (ToBoolean (field "connectionId" (query params))); [done|].
  destruct (ToBoolean (field "connectionId" (body params))); [done|].
  destruct (URL_searchParams_get _ _) as [|[v|]]; try done.
  by destruct (String.eqb v "").
Qed.

(** C6 (as amended).  [getConnectionId] returns exactly what the four sources
    give when tried in order: the capture of the leftmost match of
    [[?&]connectionId=([^&]+)] in the raw path; else the [connectionId] entry
    of the query object when it is truthy; else the [connectionId] entry of
    the body object when it is truthy; else the [connectionId] search
    parameter of the path parsed against [http://example.com] when the parse
    succeeds and the parameter is present and not empty; else [null].  A
    value it returns is never empty.  In particular, on a request whose path
    has no match of the pattern, a query id [A] wins over a body id [B], and
    with no query id the body id [B] is returned. *)
Theorem getConnectionId_precedence (params : FleekFunctionParams) :
  (forall result,
     extracted_as_specified params result <->
     result = getConnectionId params) /\
  (getConnectionId params <> JNull ->
   ToBoolean (getConnectionId params) = true) /\
  (forall A B,
     no_capture (path params) ->
     field "connectionId" (query params) = JStr A -> A <> "" ->
     field "connectionId" (body params) = JStr B ->
     getConnectionId params = JStr A) /\
  (forall B,
     no_capture (path params) ->
     ToBoolean (field "connectionId" (query params)) = false ->
     field "connectionId" (body params) = JStr B -> B <> "" ->
     getConnectionId params = JStr B).
Proof.
  assert (Hne : forall s, s <> "" -> negb (String.eqb s "") = true).
  { intros s Hs. apply negb_true_iff, String.eqb_neq, Hs. }
  rewrite getConnectionId_unfold.
  split; [|split; [|split]].
  - intros result. unfold extracted_as_specified.
    destruct (match_connectionId (path params)) as [v|] eqn:Hmatch.
    + split.
      * intros [(v' & Hv' & ->) | [Hno _]].
        -- apply match_connectionId_Some in Hv'. congruence.
        -- apply match_connectionId_None in Hno. congruence.
      * intros ->. left. exists v. split; [|done]. by apply match_connectionId_Some.
    + cbn zeta. split.
      * intros [(v' & Hv' & ->) | [_ Hrest]].
        -- apply match_connectionId_Some in Hv'. congruence.
        -- by repeat case_match.
      * intros ->. right. split; [by apply match_connectionId_None|].
        by repeat case_match.
  - destruct (match_connectionId (path params)) as [v|] eqn:Hmatch.
    + intros _. apply Hne. intros ->.
      apply match_connectionId_Some in Hmatch as (pre & (c & tail & _ & _ & Hv & _) & _).
      done.
    + cbn zeta. repeat case_match; simplify_eq/=; try done.
      intros _. by apply Hne, String.eqb_neq.
  - intros A B Hno%match_connectionId_None HA HAne HB.
    rewrite Hno, HA. cbn. by rewrite (Hne A HAne).
  - intros B Hno%match_connectionId_None HA HB HBne.
    rewrite Hno. cbn zeta. rewrite HA, HB. cbn. by rewrite (Hne B HBne).
Qed.

(** X14.  A path that carries [?connectionId=<v>] after a part free of [?]
    and [&], with [v] not empty and free of [&], and then nothing or further
    [&]-separated parameters, yields exactly [v]: the path decides, whatever
    the query object and the body hold. *)
Theorem path_id_round_trip (params : FleekFunctionParams) (p v tail : string) :
  path params = p +:+ "?connectionId=" +:+ v +:+ tail ->
  occurs "?" p = false ->
  occurs "&" p = false ->
  v <> EmptyString ->
  occurs "&" v = false ->
  tail = EmptyString \/ (exists t, tail = "&" +:+ t) ->
  getConnectionId params = JStr v.
Proof. apply getConnectionId_from_path. Qed.

Lemma main_answered (now : Z) (params : FleekFunctionParams) (st : State)
  (r : FleekFunctionResponse) :
  (main now params st).2 = Normal r -> exists text, log_line params = Normal text.
Proof.
  intros Hr. destruct (log_line params) as [text|e] eqn:Hlog; [by eexists|].
  by rewrite (main_throws now _ st _ Hlog) in Hr.
Qed.

Lemma main_open_connections (now : Z) (params : FleekFunctionParams) (st : State)
  (r : FleekFunctionResponse) :
  route_of params = RouteSSE ->
  (main now params st).2 = Normal r ->
  connections (main now params st).1 =
  (connections (initServer st) ++
   [{| id := Number_toString now; messages := []; lastEventId := 0 |}])%list.
Proof.
  intros Hroute [text Hlog]%main_answered.
  by rewrite (main_sse now _ st _ Hlog Hroute).
Qed.

Lemma find_issued (issued : string) (st : State) (cs : list SSEConnection)
  (c : SSEConnection) :
  id c = issued ->
  cursors st = (fun c => (id c, lastEventId c)) <$> (cs ++ [c])%list ->
  exists i conn,
    find_connection (JStr issued) (connections st) = Some (i, conn) /\ id conn = issued.
Proof.
  intros Hc Hcursors.
  assert (is_Some (list_find (fun s => strict_equals s (JStr issued) = true)
                     (id <$> connections st))) as [[i s] Hfind].
  { apply (f_equal (fmap fst)) in Hcursors. unfold cursors in Hcursors.
    rewrite <- !list_fmap_compose in Hcursors.
    change (fst ∘ (fun c => (id c, lastEventId c))) with id in Hcursors.
    rewrite Hcursors.
    apply (list_find_elem_of _ _ issued).
    - rewrite fmap_app. apply elem_of_app. right. simpl. rewrite Hc. apply list_elem_of_here.
    - simpl. apply String.eqb_refl. }
  pose proof (find_connection_ids (JStr issued) (connections st)) as Hids.
  rewrite Hfind in Hids.
  destruct (find_connection (JStr issued) (connections st)) as [[i' conn]|] eqn:Hfc;
    [|done].
  exists i', conn. split; [done|].
  destruct (find_connection_Some _ _ _ _ Hfc) as [_ Heq]. by simplify_eq.
Qed.

(** X15.  The id handed out by [/sse] is always accepted afterwards: in the
    state an answered opening request leaves, a
    [GET /poll?connectionId=<id>] resolves to a session with that id, and a
    [POST /messages?connectionId=<id>] is routed to the delivery with that id
    and finds a session with it, so neither is answered 400 or 404. *)
Theorem issued_id_is_accepted (now : Z) (params : FleekFunctionParams) (st : State)
  (r : FleekFunctionResponse) :
  route_of params = RouteSSE ->
  (main now params st).2 = Normal r ->
  (forall poll,
     method poll = "GET" ->
     path poll = "/poll?connectionId=" +:+ Number_toString now ->
     exists i conn,
       polled poll (main now params st).1 = Some (i, conn) /\
       id conn = Number_toString now) /\
  (forall post,
     method post = "POST" ->
     path post = "/messages?connectionId=" +:+ Number_toString now ->
     route_of post = RouteMessages /\
     getConnectionId post = JStr (Number_toString now) /\
     exists i conn,
       find_connection (getConnectionId post)
         (connections (initServer (main now params st).1)) = Some (i, conn) /\
       id conn = Number_toString now).
Proof.
  intros Hroute Hanswered.
  pose proof (Number_toString_nonempty now) as Hne.
  assert (occurs "&" (Number_toString now) = false) as Hamp.
  { apply occurs_Number_toString; [|done]. apply not_a_digit. by right. }
  assert (exists i conn,
            find_connection (JStr (Number_toString now))
              (connections (initServer (main now params st).1)) = Some (i, conn) /\
            id conn = Number_toString now) as Hfound.
  { apply (find_issued _ _ (connections (initServer st))
             {| id := Number_toString now; messages := []; lastEventId := 0 |});
      [reflexivity|].
    rewrite cursors_initServer. unfold cursors.
    by rewrite (main_open_connections _ _ _ _ Hroute Hanswered). }
  clear Hanswered. revert Hne Hamp Hfound. generalize (Number_toString now). intros issued Hne Hamp Hfound.
  split.
  - intros poll Hmethod Hpath.
    assert (getConnectionId poll = JStr issued) as Hcid.
    { apply (getConnectionId_from_path poll "/poll" issued EmptyString); auto.
      by rewrite append_empty_r. }
    unfold polled. rewrite Hcid.
    replace (route_of poll) with RoutePoll
      by (unfold route_of, startsWith; rewrite Hpath, Hmethod; reflexivity).
    simpl. replace (negb (String.eqb issued "")) with true
      by (symmetry; by apply negb_true_iff, String.eqb_neq).
    exact Hfound.
  - intros post Hmethod Hpath.
    assert (getConnectionId post = JStr issued) as Hcid.
    { apply (getConnectionId_from_path post "/messages" issued EmptyString); auto.
      by rewrite append_empty_r. }
    rewrite Hcid. split; [|by split].
    unfold route_of, startsWith. rewrite Hpath, Hmethod. reflexivity.
Qed.

(** X19.  Open, send, poll: on an initialized server with a connected
    adapter, a session opened by an answered request under an id no live
    session has, then a message sent, then a [GET /poll?connectionId=<id>]
    give exactly one frame, numbered 1, carrying the serialized message. *)
Theorem open_send_poll (now now' : Z) (params poll : FleekFunctionParams)
  (message : any) (st : State) (r : FleekFunctionResponse) :
  serverInitialized st = true ->
  isConnected (transport st) = true ->
  route_of params = RouteSSE ->
  (main now params st).2 = Normal r ->
  Forall (fun c => id c <> Number_toString now) (connections st) ->
  method poll = "GET" ->
  path poll = "/poll?connectionId=" +:+ Number_toString now ->
  rbody <$> response (main now' poll (send message (main now params st).1)).2 =
    Some (framed_event 1 "message" (as_text (JSON_stringify message))).
Proof.
  intros Hinit Hconnected Hroute [text Hlog]%main_answered Hfresh Hmethod Hpath.
  pose proof (Number_toString_nonempty now) as Hne.
  assert (occurs "&" (Number_toString now) = false) as Hamp.
  { apply occurs_Number_toString; [|done]. apply not_a_digit. by right. }
  set (new := {| id := Number_toString now; messages := []; lastEventId := 0 |}).
  assert ((main now params st).1 = set_connections st (connections st ++ [new])) as ->.
  { by rewrite (main_sse now _ st _ Hlog Hroute), (initServer_initialized st Hinit). }
  set (st2 := send message (set_connections st (connections st ++ [new]))).
  assert (connections st2 = push_message message <$> (connections st ++ [new])%list)
    as Hst2.
  { unfold st2, send. simpl. by rewrite Hconnected. }
  assert (serverInitialized st2 = true) as Hinit2.
  { unfold st2, send. simpl. by rewrite Hconnected. }
  assert (getConnectionId poll = JStr (Number_toString now)) as Hcid.
  { apply (getConnectionId_from_path poll "/poll" (Number_toString now) EmptyString); auto.
    by rewrite append_empty_r. }
  assert (ToBoolean (JStr (Number_toString now)) = true) as Htrue.
  { simpl. by apply negb_true_iff, String.eqb_neq. }
  assert (find_connection (JStr (Number_toString now)) (connections st2) =
            Some (List.length (connections st), push_message message new)) as Hfind.
  { rewrite Hst2. unfold find_connection. apply list_find_Some. split; [|split].
    - rewrite list_lookup_fmap, lookup_app_r by lia.
      by rewrite Nat.sub_diag.
    - simpl. apply String.eqb_refl.
    - intros j c Hj Hlt Hc.
      rewrite list_lookup_fmap, lookup_app_l in Hj by done.
      destruct (connections st !! j) as [c0|] eqn:Hc0; simplify_eq/=.
      apply String.eqb_eq in Hc.
      by apply (Forall_lookup_1 _ _ _ _ Hfresh Hc0). }
  assert (route_of poll = RoutePoll) as Hroute'.
  { revert Hpath. generalize (Number_toString now). intros issued Hpath.
    unfold route_of, startsWith. rewrite Hpath, Hmethod. reflexivity. }
  rewrite (main_poll now' _ _ Hroute'), (initServer_initialized st2 Hinit2), Hcid.
  rewrite (getSSEMessages_found _ _ _ _ _ Htrue Hfind).
  cbn [snd rbody response fmap option_fmap option_map]. simpl.
  f_equal. apply append_empty_r.
Qed.

End Program.

(** ** Worked requests *)

Example match_connectionId_leftmost :
  match_connectionId "/poll?connectionId=&connectionId=5&x=1" = Some "5".
Proof. reflexivity. Qed.

Example match_connectionId_keeps_fragment :
  match_connectionId "/poll?a=1&connectionId=17#f" = Some "17#f".
Proof. reflexivity. Qed.

Example match_connectionId_needs_separator :
  match_connectionId "/poll?xconnectionId=7" = None.
Proof. reflexivity. Qed.

Example JSON_stringify_object :
  JSON_stringify
    (JObj [("n", JNum 2); ("u", JUndefined); ("a", JArr [JNull; JUndefined; JBool true])]) =
  Some ("{" +:+ QUOTE +:+ "n" +:+ QUOTE +:+ ":2," +:+
        QUOTE +:+ "a" +:+ QUOTE +:+ ":[null,null,true]}").
Proof. reflexivity. Qed.

Example JSON_stringify_escapes :
  JSON_stringify (JStr ("a" +:+ LF +:+ QUOTE +:+ "\")) =
  Some (QUOTE +:+ "a\n\" +:+ QUOTE +:+ "\\" +:+ QUOTE).
Proof. reflexivity. Qed.

Example poll_body :
  rbody <$> response (main URL_sample sdk_connect 0 poll_7 two_sessions).2 =
  Some ("id: 5" +:+ LF +:+ "event: message" +:+ LF +:+ "data: a" +:+ LF +:+ LF +:+
        "id: 6" +:+ LF +:+ "event: message" +:+ LF +:+ "data: b" +:+ LF +:+ LF).
Proof. vm_compute. reflexivity. Qed.

Example open_body :
  rbody <$> response
    (main URL_sample sdk_connect 1730000000000 open_session initial_state).2 =
  Some ("Content-Type: text/event-stream" +:+ LF +:+
        "Cache-Control: no-cache" +:+ LF +:+
        "Connection: keep-alive" +:+ LF +:+ LF +:+
        "event: connected" +:+ LF +:+
        "data: {" +:+ QUOTE +:+ "connectionId" +:+ QUOTE +:+ ":" +:+
        QUOTE +:+ "1730000000000" +:+ QUOTE +:+ "}" +:+ LF +:+ LF).
Proof. vm_compute. reflexivity. Qed.

Example missing_body_is_500 :
  status <$> response
    (main URL_sample sdk_connect 0 (post_7 JUndefined) two_sessions).2 = Some (Some 500).
Proof. vm_compute. reflexivity. Qed.

Example ToString_values :
  ToString (JArr [JNum 1; JNull; JArr [JStr "a"; JUndefined]; JObj []]) =
    Normal "1,,a,,[object Object]" /\
  ToString (JObj [("toString", JNum 1)]) = Throw (ErrorObj ToPrimitive_message) /\
  ToString (JArr [JObj [("toString", JNull)]]) = Throw (ErrorObj ToPrimitive_message).
Proof. repeat split. Qed.

(** ** The properties on concrete requests *)

(** [send_broadcast] on two open sessions of a connected adapter. *)
Lemma send_broadcast_witness :
  exists a' b',
    connections (send (JStr "hi") two_sessions) = [a'; b'] /\
    messages a' = (["a"; "b"] ++ [as_text (JSON_stringify (JStr "hi"))])%list /\
    messages b' = ([] ++ [as_text (JSON_stringify (JStr "hi"))])%list.
Proof.
  destruct (send_broadcast (JStr "hi") two_sessions) as [_ Hconnected].
  destruct (Hconnected eq_refl) as (_ & _ & Htwo).
  exact (Htwo (session "7" ["a"; "b"] 4) (session "8" [] 0) eq_refl).
Defined.

(** [getConnectionId_precedence] on four requests, one per source: an id in
    the path beside a query id and a body id; a query id and a body id; a
    body id only; an id that only the URL parser finds. *)
Lemma getConnectionId_precedence_witness :
  getConnectionId URL_sample poll_three_ids = JStr "abc" /\
  getConnectionId URL_sample
    (request "POST" "/messages"
       (JObj [("connectionId", JStr "A")]) (JObj [("connectionId", JStr "B")])) = JStr "A" /\
  getConnectionId URL_sample
    (request "POST" "/messages" JUndefined (JObj [("connectionId", JStr "B")])) = JStr "B" /\
  getConnectionId URL_decoding poll_encoded = JStr "5".
Proof.
  split; [|split; [|split]].
  - destruct (getConnectionId_precedence URL_sample poll_three_ids) as (Hspec & _).
    symmetry. apply Hspec. left. exists "abc".
    split; [by apply match_connectionId_Some | reflexivity].
  - destruct (getConnectionId_precedence URL_sample
       (request "POST" "/messages"
          (JObj [("connectionId", JStr "A")]) (JObj [("connectionId", JStr "B")])))
      as (_ & _ & Hquery & _).
    apply (Hquery "A" "B");
      [by apply match_connectionId_None | reflexivity | discriminate | reflexivity].
  - destruct (getConnectionId_precedence URL_sample
       (request "POST" "/messages" JUndefined (JObj [("connectionId", JStr "B")])))
      as (_ & _ & _ & Hbody).
    apply (Hbody "B");
      [by apply match_connectionId_None | reflexivity | reflexivity | discriminate].
  - destruct (getConnectionId_precedence URL_decoding poll_encoded) as (Hspec & _).
    symmetry. apply Hspec. right.
    split; [by apply match_connectionId_None | reflexivity].
Defined.

(** The particular case as C6 words it fails on the code: a request that
    carries the query id [Q] and the body id [B] gets [abc], the id its path
    carries, and not [Q]. *)
Lemma getConnectionId_precedence_counterexample :
  field "connectionId" (query poll_three_ids) = JStr "Q" /\
  field "connectionId" (body poll_three_ids) = JStr "B" /\
  getConnectionId URL_sample poll_three_ids = JStr "abc" /\
  getConnectionId URL_sample poll_three_ids <> JStr "Q".
Proof. repeat split. discriminate. Qed.

(** [unknown_session_throws] on a delivery whose body gives as id an object
    with a [toString] entry, while two sessions are live. *)
Lemma unknown_session_throws_witness :
  route_of post_unprintable_id = RouteMessages /\
  ToBoolean (getConnectionId URL_sample post_unprintable_id) = true /\
  find_connection (getConnectionId URL_sample post_unprintable_id)
    (connections two_sessions) = None /\
  main URL_sample sdk_connect 0 post_unprintable_id two_sessions =
    (two_sessions, Throw (ErrorObj "Cannot convert object to primitive value")).
Proof.
  split; [reflexivity|].
  apply (unknown_session_throws URL_sample sdk_connect 0 post_unprintable_id
           two_sessions [("toString", JNum 1)]);
    reflexivity.
Defined.

(** [unknown_session_404] on a poll for an id no session has. *)
Lemma unknown_session_404_witness :
  main URL_sample sdk_connect 0 poll_9 two_sessions =
    (two_sessions,
     Normal
       {| status := Some 404;
          rheaders := None;
          rbody := as_text (JSON_stringify (JObj
            [("error", JStr "Connection not found");
             ("connectionId", JStr "9");
             ("availableConnections", JNum 2)])) |}).
Proof.
  apply (unknown_session_404 URL_sample sdk_connect 0 poll_9 two_sessions "9");
    [right; reflexivity | reflexivity | reflexivity | reflexivity | reflexivity].
Defined.

(** [event_framing] on a poll that drains two messages. *)
Lemma event_framing_witness :
  rbody <$> response (main URL_sample sdk_connect 0 poll_7 two_sessions).2 =
    Some (concat_text [framed_event 5 "message" "a"; framed_event 6 "message" "b"]) /\
  well_framed (concat_text [framed_event 5 "message" "a"; framed_event 6 "message" "b"]).
Proof.
  destruct (event_framing URL_sample sdk_connect 0 poll_7 two_sessions) as [_ Hpoll].
  exact (Hpoll 0%nat (session "7" ["a"; "b"] 4) eq_refl).
Defined.

(** The wire contract as C1 states it fails on the code: neither the body of
    a poll that finds an empty buffer (the ping frame) nor the body that
    opens a session is a sequence of frames with an id line. *)
Lemma event_framing_counterexample :
  (exists r,
     (main URL_sample sdk_connect 0
        (request "GET" "/poll?connectionId=8" JUndefined JUndefined)
        two_sessions).2 = Normal r /\
     ~ well_framed (rbody r)) /\
  (exists r,
     (main URL_sample sdk_connect 1730000000000 open_session initial_state).2 = Normal r /\
     ~ well_framed (rbody r)).
Proof.
  split; eexists; (split; [reflexivity|]);
    intros [Hempty | [rest Hrest]]%well_framed_head;
    vm_compute in *; discriminate.
Qed.

(** [poll_ids_sequential] on a poll of a session with two buffered messages
    and on a run of two polls with a send in between. *)
Lemma poll_ids_sequential_witness :
  (rbody <$> response (main URL_sample sdk_connect 0 poll_7 two_sessions).2 =
     Some (concat_text [framed_event 5 "message" "a"; framed_event 6 "message" "b"]) /\
   connections (main URL_sample sdk_connect 0 poll_7 two_sessions).1 !! 0%nat =
     Some (session "7" [] 6)) /\
  exists conn',
    connections
      (run URL_sample sdk_connect two_sessions
         [Invoke 0 poll_7; Transport (CallSend (JStr "c")); Invoke 1 poll_7]) !! 0%nat
      = Some conn' /\
    id conn' = "7" /\
    4 <= lastEventId conn' /\
    emitted_ids_run URL_sample sdk_connect 0 two_sessions
      [Invoke 0 poll_7; Transport (CallSend (JStr "c")); Invoke 1 poll_7] =
    seqZ 5 (lastEventId conn' - 4).
Proof.
  destruct (poll_ids_sequential URL_sample sdk_connect) as [Hpoll Hrun].
  split.
  - destruct (Hpoll 0 poll_7 two_sessions 0%nat (session "7" ["a"; "b"] 4) eq_refl)
      as [Hbody Hsession].
    split; [apply Hbody; discriminate | exact Hsession].
  - exact (Hrun two_sessions
             [Invoke 0 poll_7; Transport (CallSend (JStr "c")); Invoke 1 poll_7]
             0%nat (session "7" ["a"; "b"] 4) eq_refl).
Defined.

(** [drain_exactly_once] on two polls of a session with two buffered
    messages. *)
Lemma drain_exactly_once_witness :
  rbody <$> response (main URL_sample sdk_connect 0 poll_7 two_sessions).2 =
    Some (framed_event 5 "message" "a" +:+ framed_event 6 "message" "b") /\
  rbody <$> response
    (main URL_sample sdk_connect 1 poll_7
       (main URL_sample sdk_connect 0 poll_7 two_sessions).1).2 =
    Some (unnumbered_event "ping" "{}") /\
  (main URL_sample sdk_connect 1 poll_7
     (main URL_sample sdk_connect 0 poll_7 two_sessions).1).1 =
    (main URL_sample sdk_connect 0 poll_7 two_sessions).1.
Proof.
  destruct (drain_exactly_once URL_sample sdk_connect 0 1 poll_7 poll_7 two_sessions
              0%nat (session "7" ["a"; "b"] 4) eq_refl eq_refl eq_refl)
    as (Hfirst & _ & Hquiet & Hsame).
  split; [exact Hfirst|]. split; [exact (proj1 (Hquiet eq_refl)) | exact (Hsame eq_refl)].
Defined.

(** [poll_frame] on a poll of the first of two sessions. *)
Lemma poll_frame_witness :
  connections (getSSEMessages URL_sample (JStr "7") poll_7 two_sessions).1 !! 1%nat =
    Some (session "8" [] 0) /\
  id <$> connections (getSSEMessages URL_sample (JStr "7") poll_7 two_sessions).1 =
    ["7"; "8"] /\
  main URL_sample sdk_connect 0 poll_7 two_sessions =
    getSSEMessages URL_sample (getConnectionId URL_sample poll_7) poll_7 two_sessions.
Proof.
  destruct (poll_frame URL_sample sdk_connect (JStr "7") poll_7 two_sessions)
    as (Hids & _ & _ & _ & _ & Hother & Hmain).
  split; [|split].
  - apply (Hother 1%nat). intros c. vm_compute. discriminate.
  - exact Hids.
  - apply Hmain; reflexivity.
Defined.

(** [handler_failure_500] with a callback that throws an [Error]. *)
Lemma handler_failure_500_witness :
  let st := running [session "7" ["a"; "b"] 4; session "8" [] 0] (Some failing_callback) in
  main URL_sample sdk_connect 0 (post_7 tool_call) st =
    (st,
     Normal
       {| status := Some 500;
          rheaders := None;
          rbody := as_text (JSON_stringify (JObj
            [("error", JStr "boom"); ("connectionId", JStr "7")])) |}) /\
  cursors (main URL_sample sdk_connect 0 (post_7 tool_call) st).1 = cursors st /\
  connections (main URL_sample sdk_connect 0 (post_7 tool_call) st).1 = connections st.
Proof.
  intros st.
  destruct (handler_failure_500 URL_sample sdk_connect 0 (post_7 tool_call) st
              0%nat (session "7" ["a"; "b"] 4) failing_callback tool_call []
              (ErrorObj "boom"))
    as (Hmain & Hcursors & Hsilent); try reflexivity.
  split; [exact Hmain|]. split; [exact Hcursors|]. exact (Hsilent eq_refl).
Defined.

(** [message_normalization] on a body whose [type] is the empty string. *)
Lemma message_normalization_witness :
  let st := running [session "7" [] 0] (Some echo_callback) in
  messageContent empty_type_body = Normal (JStr "m") /\
  (main URL_sample sdk_connect 0 (post_7 empty_type_body) st).1 =
    (handleIncomingMessage (JStr "m") st).1 /\
  (main URL_sample sdk_connect 0 (post_7 empty_type_body) st).2 =
    Normal
      {| status := Some 200;
         rheaders := None;
         rbody := as_text (JSON_stringify (JObj
           [("status", JStr "received"); ("connectionId", JStr "7")])) |}.
Proof.
  intros st.
  destruct (message_normalization URL_sample sdk_connect 0 (post_7 empty_type_body) st
              0%nat (session "7" [] 0))
    as (Hcontent & Hstate & Hok); try reflexivity; try discriminate.
  split; [exact Hcontent|]. split; [exact Hstate|]. exact (Hok eq_refl).
Defined.

(** The normalization as C9 words it fails on the code: a body with an empty
    [type], a [name] and a [message] is not passed through but unwrapped, and
    a body whose [message] is the empty string is passed whole. *)
Lemma message_normalization_counterexample :
  messageContent empty_type_body <> Normal (normalize_as_specified empty_type_body) /\
  messageContent empty_message_body <> Normal (normalize_as_specified empty_message_body).
Proof. split; vm_compute; discriminate. Qed.

(** C5.  Two sessions opened at the same reading of the clock get the same
    id: the registry then holds two live sessions under one id, and a lookup
    by that id reaches the first of them only. *)
Lemma session_id_collision :
  let st1 := (main URL_sample sdk_connect 1730000000000 open_session initial_state).1 in
  let st2 := (main URL_sample sdk_connect 1730000000000 open_session st1).1 in
  connections st2 =
    [session "1730000000000" [] 0; session "1730000000000" [] 0] /\
  fst <$> find_connection (JStr "1730000000000") (connections st2) = Some 0%nat.
Proof. split; vm_compute; reflexivity. Qed.

(** ** Properties of the weather formatting *)

(** X16.  [formatAlert] prints a field that is present but empty exactly as
    it prints a missing one, with the default text of its line. *)
Theorem formatAlert_blank_fields (feature : Weather.AlertFeature) :
  Weather.formatAlert feature =
  Weather.formatAlert
    {| Weather.event := Weather.missing_if_blank (Weather.event feature);
       Weather.areaDesc := Weather.missing_if_blank (Weather.areaDesc feature);
       Weather.severity := Weather.missing_if_blank (Weather.severity feature);
       Weather.status := Weather.missing_if_blank (Weather.status feature);
       Weather.headline := Weather.missing_if_blank (Weather.headline feature) |}.
Proof.
  assert (forall f d,
            Weather.or_string (Weather.missing_if_blank f) d = Weather.or_string f d) as H.
  { intros [s|] d; [|done]. simpl. destruct (String.eqb s "") eqn:Hs; [done|].
    simpl. by rewrite Hs. }
  unfold Weather.formatAlert. cbn [Weather.event Weather.areaDesc Weather.severity
                                    Weather.status Weather.headline].
  by rewrite !H.
Qed.

(** X17.  The temperature spliced into a forecast period reads [Unknown]
    exactly when the period has no temperature or its temperature is zero: a
    forecast of zero degrees is formatted exactly as one without a
    temperature. *)
Theorem temperature_unknown_iff (t : option Z) :
  (Weather.temperature_text t = "Unknown" <-> t = None \/ t = Some 0) /\
  (forall name unit speed direction short,
     Weather.formatPeriod
       {| Weather.name := name; Weather.temperature := Some 0;
          Weather.temperatureUnit := unit; Weather.windSpeed := speed;
          Weather.windDirection := direction; Weather.shortForecast := short |} =
     Weather.formatPeriod
       {| Weather.name := name; Weather.temperature := None;
          Weather.temperatureUnit := unit; Weather.windSpeed := speed;
          Weather.windDirection := direction; Weather.shortForecast := short |}).
Proof.
  split; [|reflexivity].
  split.
  - destruct t as [n|]; [|by left]. unfold Weather.temperature_text.
    destruct (Z.eqb_spec n 0) as [->|Hn]; [by right|].
    intros Htext. exfalso.
    assert (occurs "U" (Number_toString n) = false) as Hocc.
    { apply occurs_Number_toString; [|done].
      intros d. unfold pretty_N_char. by repeat case_match. }
    rewrite Htext in Hocc. vm_compute in Hocc. discriminate.
  - by intros [-> | ->].
Qed.

(** X18.  The text of the [get-alerts] tool tells its three outcomes apart:
    it is the failure text exactly when the request failed, the
    no-active-alerts text for the upper-cased state code exactly when the
    request succeeded with a missing or empty feature list, and otherwise the
    heading for that code followed by the formatted alerts in feed order. *)
Theorem get_alerts_outcomes (toUpperCase : string -> string)
  (makeNWSRequest : string -> option Weather.AlertsResponse) (state : string) :
  let code := toUpperCase state in
  let fetched := makeNWSRequest (Weather.NWS_API_BASE +:+ "/alerts?area=" +:+ code) in
  let text := Weather.get_alerts toUpperCase makeNWSRequest state in
  (text = "Failed to retrieve alerts data" <-> fetched = None) /\
  (text = "No active alerts for " +:+ code <->
   exists data, fetched = Some data /\ default [] (Weather.features data) = []) /\
  (forall data f fs,
     fetched = Some data -> Weather.features data = Some (f :: fs) ->
     text = "Active alerts for " +:+ code +:+ ":" +:+ LF +:+ LF +:+
            join LF (map Weather.formatAlert (f :: fs))).
Proof.
  intros code fetched text. subst text. unfold Weather.get_alerts.
  fold code. fold fetched.
  destruct fetched as [data|].
  - destruct (Weather.features data) as [[|f fs]|] eqn:Hf; cbn [default].
    + split; [split; discriminate|]. split; [split; [exists data; by rewrite Hf | done]|].
      intros data' f' fs' Hdata Hf'. simplify_eq.
    + split; [split; discriminate|]. split; [split|].
      * discriminate.
      * intros (data' & Hdata & Hempty). simplify_eq. by rewrite Hf in Hempty.
      * intros data' f' fs' Hdata Hf'. by simplify_eq.
    + split; [split; discriminate|]. split; [split; [exists data; by rewrite Hf | done]|].
      intros data' f' fs' Hdata Hf'. simplify_eq.
  - split; [done|]. split; [split|].
    + discriminate.
    + by intros (data & Hdata & _).
    + intros data f fs Hdata. discriminate Hdata.
Qed.

(** ** The further properties on concrete requests *)


(** [missing_id_400] on a poll that names no session. *)
Lemma missing_id_400_witness :
  exists r,
    main URL_sample sdk_connect 0 (request "GET" "/poll" JUndefined JUndefined)
      two_sessions = (two_sessions, Normal r) /\
    status r = Some 400.
Proof.
  destruct (missing_id_400 URL_sample sdk_connect 0
              (request "GET" "/poll" JUndefined JUndefined) two_sessions)
    as (r & Hmain & Hstatus & _); [by right | reflexivity |].
  exists r. split; [exact Hmain | exact Hstatus].
Defined.

(** [non_string_id_404] on a delivery whose id is the number 7 while a
    session with id [7] is live, and on one whose id does not convert to a
    string. *)
Lemma non_string_id_404_witness :
  ((main URL_sample sdk_connect 0 post_numeric_id two_sessions).1 = two_sessions /\
   exists r,
     (main URL_sample sdk_connect 0 post_numeric_id two_sessions).2 = Normal r /\
     status r = Some 404) /\
  ((main URL_sample sdk_connect 0 post_unprintable_id two_sessions).1 = two_sessions /\
   (main URL_sample sdk_connect 0 post_unprintable_id two_sessions).2 =
     Throw (ErrorObj "Cannot convert object to primitive value")).
Proof.
  split.
  - apply (non_string_id_404 URL_sample sdk_connect 0 post_numeric_id two_sessions);
      [by left | reflexivity | intros s; vm_compute; discriminate].
  - apply (non_string_id_404 URL_sample sdk_connect 0 post_unprintable_id two_sessions);
      [by left | reflexivity | intros s; vm_compute; discriminate].
Defined.

(** [nullish_body_500] on a delivery without a body. *)
Lemma nullish_body_500_witness :
  main URL_sample sdk_connect 0 (post_7 JUndefined) two_sessions =
    (two_sessions,
     Normal
       {| status := Some 500;
          rheaders := None;
          rbody := as_text (JSON_stringify (JObj
            [("error", JStr (TypeError_message JUndefined "type"));
             ("connectionId", JStr "7")])) |}).
Proof.
  apply (nullish_body_500 URL_sample sdk_connect 0 (post_7 JUndefined) two_sessions
           0%nat (session "7" ["a"; "b"] 4));
    [reflexivity | reflexivity | reflexivity | by left].
Defined.

(** [no_callback_200] on a delivery to a transport without a callback. *)
Lemma no_callback_200_witness :
  main URL_sample sdk_connect 0 (post_7 tool_call) two_sessions =
    (two_sessions,
     Normal
       {| status := Some 200;
          rheaders := None;
          rbody := as_text (JSON_stringify (JObj
            [("status", JStr "received"); ("connectionId", JStr "7")])) |}).
Proof.
  apply (no_callback_200 URL_sample sdk_connect 0 (post_7 tool_call) two_sessions
           0%nat (session "7" ["a"; "b"] 4));
    [reflexivity | reflexivity | reflexivity | discriminate | discriminate | reflexivity].
Defined.

(** [cursors_stay_bounded] from the state of a freshly loaded module. *)
Lemma cursors_stay_bounded_witness :
  cursors_bounded (run URL_sample sdk_connect initial_state short_life).
Proof.
  apply (cursors_stay_bounded URL_sample sdk_connect initial_state short_life).
  apply Forall_nil_2.
Defined.

(** [buffers_stay_single_line] from the state of a freshly loaded module. *)
Lemma buffers_stay_single_line_witness :
  buffers_single_line (run URL_sample sdk_connect initial_state short_life).
Proof.
  apply (buffers_stay_single_line URL_sample sdk_connect initial_state short_life).
  apply Forall_nil_2.
Defined.

(** [connect_runs_once] from a running module. *)
Lemma connect_runs_once_witness :
  serverInitialized (run URL_sample sdk_connect two_sessions short_life) = true /\
  initServer sdk_connect (run URL_sample sdk_connect two_sessions short_life) =
    run URL_sample sdk_connect two_sessions short_life.
Proof.
  apply (connect_runs_once URL_sample sdk_connect two_sessions short_life).
  reflexivity.
Defined.

(** [shadowed_session_never_drained] on two sessions under the id [7], over a
    broadcast and two polls for that id. *)
Lemma shadowed_session_never_drained_witness :
  exists cj',
    connections
      (run URL_sample sdk_connect shadowed_sessions
         [Transport (CallSend (JStr "x")); Invoke 1 poll_7; Invoke 2 poll_7]) !! 1%nat
      = Some cj' /\
    id cj' = "7" /\
    lastEventId cj' = 0 /\
    ["late"] `prefix_of` messages cj'.
Proof.
  apply (shadowed_session_never_drained URL_sample sdk_connect shadowed_sessions
           [Transport (CallSend (JStr "x")); Invoke 1 poll_7; Invoke 2 poll_7]
           0%nat 1%nat (session "7" [] 0) (session "7" ["late"] 0));
    [lia | reflexivity | reflexivity | reflexivity].
Defined.

(** [send_then_poll] on the first of two sessions. *)
Lemma send_then_poll_witness :
  rbody <$> response (getSSEMessages URL_sample (JStr "7") poll_7
                        (send (JStr "hi") two_sessions)).2 =
    Some (concat_text (zip_with (fun n msg => framed_event n "message" msg) [5; 6; 7]
                         (["a"; "b"] ++ [as_text (JSON_stringify (JStr "hi"))]))) /\
  connections (getSSEMessages URL_sample (JStr "7") poll_7
                 (send (JStr "hi") two_sessions)).1 !! 0%nat =
    Some {| id := "7"; messages := []; lastEventId := 4 + Z.of_nat 2 + 1 |}.
Proof.
  apply (send_then_poll URL_sample (JStr "hi") (JStr "7") poll_7 two_sessions
           0%nat (session "7" ["a"; "b"] 4));
    reflexivity.
Defined.

(** [path_id_round_trip] on a poll whose query object and body carry other
    ids. *)
Lemma path_id_round_trip_witness :
  getConnectionId URL_sample poll_three_ids = JStr "abc".
Proof.
  apply (path_id_round_trip URL_sample poll_three_ids "/poll" "abc" "&x=1");
    [reflexivity | reflexivity | reflexivity | discriminate | reflexivity |].
  right. by exists "x=1".
Defined.

(** [issued_id_is_accepted] on the first session of a freshly loaded
    module. *)
Lemma issued_id_is_accepted_witness :
  exists i conn,
    polled URL_sample sdk_connect
      (request "GET" ("/poll?connectionId=" +:+ Number_toString 1730000000000)
         JUndefined JUndefined)
      (main URL_sample sdk_connect 1730000000000 open_session initial_state).1
      = Some (i, conn) /\
    id conn = Number_toString 1730000000000.
Proof.
  destruct (issued_id_is_accepted URL_sample sdk_connect 1730000000000 open_session
              initial_state _ eq_refl eq_refl) as [Hpoll _].
  exact (Hpoll (request "GET" ("/poll?connectionId=" +:+ Number_toString 1730000000000)
                  JUndefined JUndefined) eq_refl eq_refl).
Defined.

(** [open_send_poll] on a third session opened beside two others. *)
Lemma open_send_poll_witness :
  rbody <$> response
    (main URL_sample sdk_connect 10
       (request "GET" ("/poll?connectionId=" +:+ Number_toString 9)
          JUndefined JUndefined)
       (send (JStr "hi")
          (main URL_sample sdk_connect 9 open_session two_sessions).1)).2 =
    Some (framed_event 1 "message" (as_text (JSON_stringify (JStr "hi")))).
Proof.
  eapply (open_send_poll URL_sample sdk_connect 9 10 open_session
            (request "GET" ("/poll?connectionId=" +:+ Number_toString 9)
               JUndefined JUndefined)
            (JStr "hi") two_sessions);
    try reflexivity.
  repeat (apply Forall_cons_2; [intros H; vm_compute in H; discriminate H|]).
  apply Forall_nil_2.
Defined.

(** [get_alerts_outcomes] on an upstream without alerts, for the state code
    [CA], which upper-casing leaves as it is. *)
Lemma get_alerts_outcomes_witness :
  Weather.get_alerts (fun s => s) no_alerts "CA" = "No active alerts for CA".
Proof.
  destruct (get_alerts_outcomes (fun s => s) no_alerts "CA") as (_ & [_ Hnone] & _).
  apply Hnone. by eexists.
Defined.
